(** * website-search-indexer: crawl-and-index engine

    A shallow embedding of [indexer_script.py] (the unscoped crawler) and of
    [indexer_script_prefixed.py] (the variant scoped to a path prefix).

    Python values are modelled as follows:
    - [str] as [string] (texts are taken to be ASCII);
    - [list] as [list], the [seen] set as [gset string];
    - the inverted index, a dict of dicts of lists, as
      [gmap string (gmap string (list nat))];
    - an exception raised by a callee as [None] of an [option] result,
      a failed write of the index file as [false];
    - [print] lines as events of a log kept in the crawler state. *)

From Stdlib Require Import ZArith Ascii String List Lia.
From stdpp Require Import base decidable option list sorting gmap strings.

Local Open Scope string_scope.
Local Open Scope Z_scope.

(** ** Python string operations used by the scripts *)

Module PyStr.

Definition chr_of (c : ascii) : string := String c EmptyString.

Definition code (c : ascii) : nat := nat_of_ascii c.

Definition is_upper (c : ascii) : bool :=
  ((65 <=? code c) && (code c <=? 90))%nat.

Definition is_lower (c : ascii) : bool :=
  ((97 <=? code c) && (code c <=? 122))%nat.

Definition is_digit (c : ascii) : bool :=
  ((48 <=? code c) && (code c <=? 57))%nat.

Definition is_alpha (c : ascii) : bool := is_upper c || is_lower c.

Definition is_space (c : ascii) : bool :=
  ((code c =? 32) || ((9 <=? code c) && (code c <=? 13)))%nat.

(** [\w] of the [re] module, on ASCII text. *)
Definition is_word (c : ascii) : bool :=
  is_alpha c || is_digit c || (code c =? 95)%nat.

Definition lower_char (c : ascii) : ascii :=
  if is_upper c then ascii_of_nat (code c + 32) else c.

(** [s.lower()] *)
Fixpoint lower (s : string) : string :=
  match s with
  | EmptyString => EmptyString
  | String c s' => String (lower_char c) (lower s')
  end.

Definition len (s : string) : Z := Z.of_nat (String.length s).

(** [s[:i]] and [s[i:]] for an index [0 <= i]. *)
Fixpoint take (n : nat) (s : string) : string :=
  match n, s with
  | S n', String c s' => String c (take n' s')
  | _, _ => EmptyString
  end.

Fixpoint drop (n : nat) (s : string) : string :=
  match n, s with
  | S n', String _ s' => drop n' s'
  | _, _ => s
  end.

Definition slice_to (s : string) (i : Z) : string := take (Z.to_nat i) s.
Definition slice_from (s : string) (i : Z) : string := drop (Z.to_nat i) s.

(** [s.find(c, start)], [-1] when [c] does not occur; [i] is the index of
    the first character of [s]. *)
Fixpoint find_at (c : ascii) (s : string) (i : Z) : Z :=
  match s with
  | EmptyString => -1
  | String a s' => if Ascii.eqb a c then i else find_at c s' (i + 1)
  end.

Definition find (c : ascii) (s : string) : Z := find_at c s 0.

Definition find_from (c : ascii) (s : string) (start : Z) : Z :=
  find_at c (slice_from s start) (Z.max start 0).

(** [s.rfind(c)] *)
Fixpoint rfind_at (c : ascii) (s : string) (i : Z) : Z :=
  match s with
  | EmptyString => -1
  | String a s' =>
      let r := rfind_at c s' (i + 1) in
      if 0 <=? r then r else if Ascii.eqb a c then i else -1
  end.

Definition rfind (c : ascii) (s : string) : Z := rfind_at c s 0.

(** [c in s] *)
Definition contains (c : ascii) (s : string) : bool := 0 <=? find c s.

(** [s.startswith(p)] and [s.endswith(p)] *)
Definition startswith (s p : string) : bool := String.prefix p s.

Fixpoint endswith (s p : string) : bool :=
  String.eqb s p ||
  match s with
  | EmptyString => false
  | String _ s' => endswith s' p
  end.

(** [sub in s] *)
Fixpoint has_substring (sub s : string) : bool :=
  String.prefix sub s ||
  match s with
  | EmptyString => false
  | String _ s' => has_substring sub s'
  end.

(** [s.split(c)]: every piece between two separators, empty ones kept. *)
Fixpoint split_go (c : ascii) (s : string) (cur : string) : list string :=
  match s with
  | EmptyString => [cur]
  | String a s' =>
      if Ascii.eqb a c then cur :: split_go c s' EmptyString
      else split_go c s' (cur +:+ chr_of a)
  end.

Definition split (c : ascii) (s : string) : list string :=
  split_go c s EmptyString.

(** [s.rsplit(c, 1)] *)
Definition rsplit1 (c : ascii) (s : string) : list string :=
  let i := rfind c s in
  if i <? 0 then [s] else [slice_to s i; slice_from s (i + 1)].

(** [sep.join(l)] *)
Fixpoint join (sep : string) (l : list string) : string :=
  match l with
  | [] => EmptyString
  | [x] => x
  | x :: l' => x +:+ sep +:+ join sep l'
  end.

(** Truth value of a string: non-empty. *)
Definition truthy (s : string) : bool :=
  match s with EmptyString => false | _ => true end.

(** [l[0]] and [l[-1]] of a non-empty list of strings. *)
Definition first (l : list string) : string := List.hd EmptyString l.
Definition last (l : list string) : string := List.last l EmptyString.

End PyStr.

(** ** Library functions the scripts call

    [os.path.splitext] and [urllib.parse] are not part of the repository; the
    definitions below follow CPython's [genericpath._splitext] (POSIX
    separator) and [urllib.parse] ([urlsplit], [urlparse], [urlunparse],
    [urljoin]) on ASCII URLs without control characters.  [None] stands for
    the [ValueError] that [urlsplit] raises on an unbalanced bracket in the
    authority. *)

Module PyLib.
Import PyStr.

(** The [while filenameIndex < dotIndex] loop of [_splitext]: is there a
    character other than the dot among the [n] characters from
    [filenameIndex] on? *)
Fixpoint has_non_dot (p : string) (filenameIndex : Z) (n : nat) : bool :=
  match n with
  | O => false
  | S n' =>
      if String.eqb (take 1 (slice_from p filenameIndex)) "."
      then has_non_dot p (filenameIndex + 1) n'
      else true
  end.

Definition splitext (p : string) : string * string :=
  let sepIndex := rfind "/" p in
  let dotIndex := rfind "." p in
  if (sepIndex <? dotIndex)
     && has_non_dot p (sepIndex + 1) (Z.to_nat (dotIndex - (sepIndex + 1)))
  then (slice_to p dotIndex, slice_from p dotIndex)
  else (p, "").

Record ParseResult := mkParseResult {
  scheme : string;
  netloc : string;
  path : string;
  params : string;
  query : string;
  fragment : string
}.

Definition uses_relative : list string :=
  [""; "ftp"; "http"; "gopher"; "nntp"; "imap"; "wais"; "file"; "https";
   "shttp"; "mms"; "prospero"; "rtsp"; "rtsps"; "rtspu"; "sftp"; "svn";
   "svn+ssh"; "ws"; "wss"].

Definition uses_netloc : list string :=
  [""; "ftp"; "http"; "gopher"; "nntp"; "telnet"; "imap"; "wais"; "file";
   "mms"; "https"; "shttp"; "snews"; "prospero"; "rtsp"; "rtsps"; "rtspu";
   "rsync"; "svn"; "svn+ssh"; "sftp"; "nfs"; "git"; "git+ssh"; "ws"; "wss";
   "itms-services"].

Definition uses_params : list string :=
  [""; "ftp"; "hdl"; "prospero"; "http"; "imap"; "https"; "shttp"; "rtsp";
   "rtsps"; "rtspu"; "sip"; "sips"; "mms"; "sftp"; "tel"].

Definition str_in (s : string) (l : list string) : bool :=
  existsb (String.eqb s) l.

Definition scheme_char (c : ascii) : bool :=
  is_alpha c || is_digit c || str_in (chr_of c) ["+"; "-"; "."].

Fixpoint all_chars (f : ascii -> bool) (s : string) : bool :=
  match s with
  | EmptyString => true
  | String c s' => f c && all_chars f s'
  end.

Definition first_is_alpha (s : string) : bool :=
  match s with String c _ => is_alpha c | EmptyString => false end.

(** [_splitnetloc(url, 2)] *)
Definition splitnetloc (url : string) (start : Z) : string * string :=
  let delim :=
    fold_left
      (fun delim c =>
         let wdelim := find_from c url start in
         if 0 <=? wdelim then Z.min delim wdelim else delim)
      ["/"; "?"; "#"]%char (len url) in
  (slice_from (slice_to url delim) start, slice_from url delim).

(** [url.split(c, 1)] read as a pair, for a [url] that contains [c]. *)
Definition cut (c : ascii) (url : string) : string * string :=
  let i := find c url in
  if i <? 0 then (url, "") else (slice_to url i, slice_from url (i + 1)).

Definition urlsplit (url scheme0 : string)
  : option (string * string * string * string * string) :=
  let i := find ":" url in
  let '(scheme, url) :=
    if (0 <? i) && first_is_alpha url && all_chars scheme_char (slice_to url i)
    then (lower (slice_to url i), slice_from url (i + 1))
    else (scheme0, url) in
  '(netloc, url) ←
    (if String.eqb (take 2 url) "//" then
       let '(netloc, rest) := splitnetloc url 2 in
       if xorb (contains "[" netloc) (contains "]" netloc)
       then None else Some (netloc, rest)
     else Some ("", url));
  let '(url, fragment) := cut "#" url in
  let '(url, query) := cut "?" url in
  Some (scheme, netloc, url, query, fragment).

Definition splitparams (url : string) : string * string :=
  let i :=
    if contains "/" url then find_from ";" url (rfind "/" url)
    else find ";" url in
  if contains "/" url && (i <? 0) then (url, "")
  else (slice_to url i, slice_from url (i + 1)).

Definition urlparse_with (url scheme0 : string) : option ParseResult :=
  '(scheme, netloc, url, query, fragment) ← urlsplit url scheme0;
  let '(url, params) :=
    if str_in scheme uses_params && contains ";" url
    then splitparams url else (url, "") in
  Some (mkParseResult scheme netloc url params query fragment).

(** [urlparse(url)] *)
Definition urlparse (url : string) : option ParseResult :=
  urlparse_with url "".

Definition urlunsplit (scheme netloc url query fragment : string) : string :=
  let url :=
    if truthy netloc
       || (truthy scheme && str_in scheme uses_netloc
           && negb (String.eqb (take 2 url) "//"))
    then
      let url :=
        if truthy url && negb (String.eqb (take 1 url) "/")
        then "/" +:+ url else url in
      "//" +:+ netloc +:+ url
    else url in
  let url := if truthy scheme then scheme +:+ ":" +:+ url else url in
  let url := if truthy query then url +:+ "?" +:+ query else url in
  if truthy fragment then url +:+ "#" +:+ fragment else url.

Definition urlunparse (r : ParseResult) : string :=
  let url :=
    if truthy (params r) then path r +:+ ";" +:+ params r else path r in
  urlunsplit (scheme r) (netloc r) url (query r) (fragment r).

(** [segments[1:-1] = filter(None, segments[1:-1])] *)
Definition drop_inner_empty (segments : list string) : list string :=
  match segments with
  | x :: (_ :: _) as rest =>
      x :: (List.filter truthy (removelast rest) ++ [PyStr.last rest])%list
  | _ => segments
  end.

(** The [for seg in segments] loop of [urljoin]; [resolved] is kept in
    reverse, so that [pop] removes its head. *)
Fixpoint resolve_segments (segments resolved : list string) : list string :=
  match segments with
  | [] => rev resolved
  | seg :: segments' =>
      if String.eqb seg ".." then resolve_segments segments' (List.tl resolved)
      else if String.eqb seg "." then resolve_segments segments' resolved
      else resolve_segments segments' (seg :: resolved)
  end.

Definition urljoin (base url : string) : option string :=
  if negb (truthy base) then Some url
  else if negb (truthy url) then Some base
  else
    b ← urlparse base;
    u ← urlparse_with url (scheme b);
    if negb (String.eqb (scheme u) (scheme b))
       || negb (str_in (scheme u) uses_relative)
    then Some url
    else if str_in (scheme u) uses_netloc && truthy (netloc u)
    then Some (urlunparse u)
    else
      let netloc' :=
        if str_in (scheme u) uses_netloc then netloc b else netloc u in
      if negb (truthy (path u)) && negb (truthy (params u)) then
        let query' := if truthy (query u) then query u else query b in
        Some (urlunparse
                (mkParseResult (scheme u) netloc' (path b) (params b)
                   query' (fragment u)))
      else
        let base_parts := split "/" (path b) in
        let base_parts :=
          if truthy (PyStr.last base_parts) then removelast base_parts
          else base_parts in
        let segments :=
          if String.eqb (take 1 (path u)) "/" then split "/" (path u)
          else drop_inner_empty (base_parts ++ split "/" (path u))%list in
        let resolved_path := resolve_segments segments [] in
        let resolved_path :=
          if str_in (PyStr.last segments) ["."; ".."]
          then (resolved_path ++ [""])%list else resolved_path in
        let joined := join "/" resolved_path in
        Some (urlunparse
                (mkParseResult (scheme u) netloc'
                   (if truthy joined then joined else "/")
                   (params u) (query u) (fragment u))).

End PyLib.


(** ** [html.parser.HTMLParser]

    The parser turns a document into calls of the handlers of its subclass:
    [handle_starttag(tag, attrs)], [handle_endtag(tag)] and
    [handle_data(data)] (the other handlers are not overridden by the
    scripts and do nothing).  An attribute without a value has value
    [None]. *)

Inductive Event :=
  | StartTag (tag : string) (attrs : list (string * option string))
  | EndTag (tag : string)
  | Data (data : string).

(** A tokenizer for the examples: it follows [HTMLParser.feed] on documents
    made of text without character references, start tags with attributes
    and end tags, the content of [script] and [style] being character data.
    [None] is returned on anything else (comments, declarations, [&], an
    unfinished tag). *)

Module HtmlModel.
Import PyStr.

Fixpoint span (f : ascii -> bool) (s : string) : string * string :=
  match s with
  | String c s' =>
      if f c then let '(a, b) := span f s' in (String c a, b)
      else (EmptyString, s)
  | EmptyString => (EmptyString, EmptyString)
  end.

Definition is_char (c d : ascii) : bool := Ascii.eqb c d.

Definition name_char (c : ascii) : bool :=
  negb (is_space c || is_char c "/" || is_char c ">" || is_char c "=").

(** Index of the first occurrence of [needle], compared without case. *)
Fixpoint find_ci (needle s : string) (i : nat) : option nat :=
  if String.prefix (lower needle) (lower s) then Some i
  else match s with
       | EmptyString => None
       | String _ s' => find_ci needle s' (S i)
       end.

(** The double quote, character 34. *)
Definition dquote : ascii := ascii_of_nat 34.

(** The value of an attribute; [s] starts after the attribute name. *)
Definition parse_value (s : string) : option (option string * string) :=
  match s with
  | String "=" (String q v) =>
      if is_char q dquote || is_char q "'" then
        let '(value, r) := span (fun c => negb (is_char c q)) v in
        match r with
        | String _ r' => Some (Some value, r')
        | EmptyString => None
        end
      else
        let '(value, r) :=
          span (fun c => negb (is_space c || is_char c ">")) (String q v) in
        Some (Some value, r)
  | String "=" EmptyString => None
  | _ => Some (None, s)
  end.

(** The attributes of a start tag; [s] starts after the tag name.  The
    result holds the attributes, whether the tag ended in [/>], and the
    rest of the document after the tag. *)
Fixpoint parse_attrs (fuel : nat) (s : string)
  : option (list (string * option string) * bool * string) :=
  match fuel with
  | O => None
  | S fuel' =>
      match snd (span is_space s) with
      | EmptyString => None
      | String ">" rest => Some ([], false, rest)
      | String "/" (String ">" rest) => Some ([], true, rest)
      | String "/" _ => None
      | s0 =>
          let '(name, s1) := span name_char s0 in
          if negb (truthy name) then None
          else
            '(value, s2) ← parse_value s1;
            if match value with Some v => contains "&" v | None => false end
            then None
            else
              '(attrs, closed, rest) ← parse_attrs fuel' s2;
              Some ((lower name, value) :: attrs, closed, rest)
      end
  end.

Definition cdata_content_elements : list string := ["script"; "style"].

Fixpoint goahead (fuel : nat) (cdata_elem : option string) (rawdata : string)
  : option (list Event) :=
  match fuel with
  | O => None
  | S fuel' =>
      match cdata_elem, rawdata with
      | _, EmptyString => Some []
      | Some elem, _ =>
          i ← find_ci ("</" +:+ elem) rawdata 0%nat;
          evs ← goahead fuel' None (drop i rawdata);
          Some (if truthy (take i rawdata)
                then Data (take i rawdata) :: evs else evs)
      | None, String "<" (String "/" s) =>
          let '(name, s1) := span name_char s in
          if negb (PyLib.first_is_alpha name) then None
          else match snd (span is_space s1) with
               | String ">" rest =>
                   evs ← goahead fuel' None rest;
                   Some (EndTag (lower name) :: evs)
               | _ => None
               end
      | None, String "<" s =>
          let '(name, s1) := span name_char s in
          if negb (PyLib.first_is_alpha name) then None
          else
            '(attrs, closed, rest) ← parse_attrs (String.length s1 + 1) s1;
            let tag := lower name in
            if (closed : bool) then
              evs ← goahead fuel' None rest;
              Some (StartTag tag attrs :: EndTag tag :: evs)
            else
              evs ← goahead fuel'
                      (if PyLib.str_in tag cdata_content_elements
                       then Some tag else None) rest;
              Some (StartTag tag attrs :: evs)
      | None, _ =>
          let '(data, rest) := span (fun c => negb (is_char c "<")) rawdata in
          if contains "&" data then None
          else evs ← goahead fuel' None rest; Some (Data data :: evs)
      end
  end.

Definition feed (rawdata : string) : option (list Event) :=
  goahead (String.length rawdata + 1) None rawdata.

End HtmlModel.

(** ** The scripts: helpers and parsers *)

Import PyStr.
Local Close Scope Z_scope.
Local Open Scope list_scope.

(** The index: term -> url -> positions. *)
Abbreviation Index := (gmap string (gmap string (list nat))).

(** [d.get(k)] on the two levels of the index: the posting of [term] for
    [url], when there is one. *)
Definition posting (index : Index) (term url : string) : option (list nat) :=
  index !! term ≫= fun postings => postings !! url.

Section is_likely_html.
(** [urlparse] of [urllib.parse]; [None] is a raised [ValueError]. *)
Variable urlparse : string -> option PyLib.ParseResult.

(** [ext in ('', '.html', '.htm')] *)
Definition html_ext (ext : string) : bool :=
  PyLib.str_in ext [""; ".html"; ".htm"].

Definition is_likely_html (url : string) : option bool :=
  r ← urlparse url;
  let path := PyLib.path r in
  let '(root, ext) := PyLib.splitext path in
  if html_ext ext then Some true
  else if endswith path "/" then Some true
  else Some false.
End is_likely_html.

Module TextExtractor.
Record t := mk { in_body : bool; skip : bool; chunks : list string }.

Definition init : t := mk false false [].

Definition handle_starttag (self : t) (tag : string)
    (attrs : list (string * option string)) : t :=
  let tag := lower tag in
  if String.eqb tag "body" then mk true (skip self) (chunks self)
  else if in_body self && PyLib.str_in tag ["script"; "style"; "head"]
  then mk (in_body self) true (chunks self)
  else self.

Definition handle_endtag (self : t) (tag : string) : t :=
  let tag := lower tag in
  if String.eqb tag "body" then mk false (skip self) (chunks self)
  else if PyLib.str_in tag ["script"; "style"; "head"]
  then mk (in_body self) false (chunks self)
  else self.

Definition handle_data (self : t) (data : string) : t :=
  if in_body self && negb (skip self)
  then mk (in_body self) (skip self) (chunks self ++ [data])
  else self.

Definition handle (self : t) (e : Event) : t :=
  match e with
  | StartTag tag attrs => handle_starttag self tag attrs
  | EndTag tag => handle_endtag self tag
  | Data data => handle_data self data
  end.

(** The handler calls of one [feed]. *)
Definition feed (self : t) (events : list Event) : t :=
  fold_left handle events self.

Definition text (self : t) : string := join " " (chunks self).
End TextExtractor.

Module LinkExtractor.
Record t := mk { links : list string }.

Definition init : t := mk [].

(** [for (k, v) in attrs: if k.lower() == 'href' and v: links.append(v)] *)
Fixpoint append_hrefs (links : list string)
    (attrs : list (string * option string)) : list string :=
  match attrs with
  | [] => links
  | (k, v) :: attrs' =>
      match v with
      | Some v =>
          if String.eqb (lower k) "href" && truthy v
          then append_hrefs (links ++ [v]) attrs'
          else append_hrefs links attrs'
      | None => append_hrefs links attrs'
      end
  end.

Definition handle_starttag (self : t) (tag : string)
    (attrs : list (string * option string)) : t :=
  if String.eqb (lower tag) "a" then mk (append_hrefs (links self) attrs)
  else self.

Definition handle (self : t) (e : Event) : t :=
  match e with
  | StartTag tag attrs => handle_starttag self tag attrs
  | EndTag _ => self
  | Data _ => self
  end.

Definition feed (self : t) (events : list Event) : t :=
  fold_left handle events self.
End LinkExtractor.

(** [re.split(r'\W+', text)]: the pieces between maximal runs of non-word
    characters; [cur] is the piece being read, [in_sep] says that the last
    character read belongs to a separator. *)
Fixpoint re_split_W (text : string) (cur : string) (in_sep : bool)
  : list string :=
  match text with
  | EmptyString => [cur]
  | String c text' =>
      if is_word c then re_split_W text' (cur +:+ chr_of c) false
      else if in_sep then re_split_W text' cur true
      else cur :: re_split_W text' EmptyString true
  end.

Definition tokenize (text : string) : list string :=
  map lower (List.filter truthy (re_split_W text EmptyString false)).

(** ** The inverted index update (step 2 of [main]) *)

(** [postings = index.setdefault(term, {}); postings.setdefault(url, []).append(pos)] *)
Definition add_occurrence (index : Index) (term url : string) (pos : nat)
  : Index :=
  let postings := default ∅ (index !! term) in
  let positions := default [] (postings !! url) in
  <[term := <[url := positions ++ [pos]]> postings]> index.

(** [for pos, term in enumerate(tokens)], from position [pos] on. *)
Fixpoint index_from (pos : nat) (tokens : list string) (url : string)
    (index : Index) : Index :=
  match tokens with
  | [] => index
  | term :: tokens' =>
      index_from (S pos) tokens' url (add_occurrence index term url pos)
  end.

Definition index_tokens (index : Index) (url : string) (tokens : list string)
  : Index :=
  index_from 0 tokens url index.

(** ** The crawl loop ([main]) *)

(** What the scripts read of a [requests.Response]. *)
Record Response := mkResponse {
  status_code : Z;
  content_type_header : option string;
  text : string
}.

(** [r.raise_for_status()] raises for the 4xx and 5xx codes. *)
Definition raise_for_status (r : Response) : bool :=
  ((400 <=? status_code r) && (status_code r <? 600))%Z.

(** The lines the scripts print. *)
Inductive LogLine :=
  | SkippingNonHtmlUrl (url : string)
  | FailedToFetch (url : string)
  | SkippingNonHtmlContent (url content_type : string)
  | IndexedPages (page_count queue : nat)
  | FlushedIndex (terms : nat)
  | ErrorParsing (url : string)
  | DoneTotal (page_count : nat).

(** The local variables of [main], together with what the run has done to
    the outside: the URLs requested ([fetched], oldest first), the indexes
    [flush_index] was called with ([flushed], oldest first), the lines
    printed, and whether an exception has escaped [main] ([crashed]). *)
Record State := mkState {
  to_crawl : list string;
  seen : gset string;
  index : Index;
  page_count : nat;
  fetched : list string;
  flushed : list Index;
  log : list LogLine;
  crashed : bool
}.

Definition FLUSH_EVERY : nat := 50.

(** Assignments to the variables of [main]. *)
Definition set_to_crawl (q : list string) (s : State) : State :=
  mkState q (seen s) (index s) (page_count s) (fetched s) (flushed s) (log s)
    (crashed s).

Definition set_seen (x : gset string) (s : State) : State :=
  mkState (to_crawl s) x (index s) (page_count s) (fetched s) (flushed s)
    (log s) (crashed s).

Definition set_index (i : Index) (s : State) : State :=
  mkState (to_crawl s) (seen s) i (page_count s) (fetched s) (flushed s)
    (log s) (crashed s).

Definition set_page_count (n : nat) (s : State) : State :=
  mkState (to_crawl s) (seen s) (index s) n (fetched s) (flushed s) (log s)
    (crashed s).

(** A request for [url] goes out. *)
Definition request (url : string) (s : State) : State :=
  mkState (to_crawl s) (seen s) (index s) (page_count s) (fetched s ++ [url])
    (flushed s) (log s) (crashed s).

(** An exception escapes [main]. *)
Definition crash (s : State) : State :=
  mkState (to_crawl s) (seen s) (index s) (page_count s) (fetched s)
    (flushed s) (log s) true.

Definition print (line : LogLine) (s : State) : State :=
  mkState (to_crawl s) (seen s) (index s) (page_count s) (fetched s)
    (flushed s) (log s ++ [line]) (crashed s).

(** [flush_index] is called with the index. *)
Definition flush_call (s : State) : State :=
  mkState (to_crawl s) (seen s) (index s) (page_count s) (fetched s)
    (flushed s ++ [index s]) (log s) (crashed s).

Definition initial (START_URL : string) : State :=
  mkState [START_URL] ∅ ∅ 0 [] [] [] false.

Section CrawlLoop.
(** The outside of the scripts: [urljoin], the handler calls
    [HTMLParser.feed] makes on a document, and
    [requests.get(url, timeout=10)], whose answer may depend on the number
    of requests made before.  [None] is a raised exception. *)
Variable urljoin : string -> string -> option string.
Variable html_feed : string -> option (list Event).
Variable requests_get : nat -> string -> option Response.

(** The file write of [flush_index] ([open] and [json.dump]), which may
    depend on the number of writes tried before: [false] is a raised
    exception.  Standard output is taken to accept every line. *)
Variable dump : nat -> Index -> bool.

(** [flush_index(idx)]: the state it leaves, and whether it raised. *)
Definition flush_index (s : State) : State * bool :=
  if dump (length (flushed s)) (index s)
  then (print (FlushedIndex (size (index s))) (flush_call s), false)
  else (flush_call s, true).

(** The places where the two scripts differ: the test made on a dequeued
    URL before [is_likely_html] (only the prefixed script has one), and the
    condition under which a resolved link is appended. *)
Variable in_scope : string -> option bool.
Variable is_html : string -> option bool.
Variable link_wanted : gset string -> string -> option bool.

(** Step 3 of the [try] block: [for href in le.links].  The result is the
    queue, and whether the loop raised. *)
Fixpoint enqueue_links (url : string) (seen : gset string)
    (hrefs : list string) (to_crawl : list string) : list string * bool :=
  match hrefs with
  | [] => (to_crawl, false)
  | href :: hrefs' =>
      let candidate := first (split "#" href) in
      match urljoin url candidate with
      | None => (to_crawl, true)
      | Some abs_link =>
          match link_wanted seen abs_link with
          | None => (to_crawl, true)
          | Some true => enqueue_links url seen hrefs' (to_crawl ++ [abs_link])
          | Some false => enqueue_links url seen hrefs' to_crawl
          end
      end
  end.

(** The [try] block of [main] for the page [html] fetched at [url]: the
    state it leaves, and whether it raised. *)
Definition try_index (url html : string) (s : State) : State * bool :=
  match html_feed html with
  | None => (s, true)
  | Some events =>
      let te := TextExtractor.feed TextExtractor.init events in
      let tokens := tokenize (TextExtractor.text te) in
      let s := set_index (index_tokens (index s) url tokens) s in
      match html_feed html with
      | None => (s, true)
      | Some events =>
          let le := LinkExtractor.feed LinkExtractor.init events in
          let '(queue, raised) :=
            enqueue_links url (seen s) (LinkExtractor.links le) (to_crawl s) in
          let s := set_to_crawl queue s in
          if raised then (s, true)
          else
            let s := set_page_count (page_count s + 1) s in
            if Nat.eqb (page_count s mod FLUSH_EVERY) 0 then
              flush_index
                (print (IndexedPages (page_count s) (length (to_crawl s))) s)
            else (s, false)
      end
  end.

(** One turn of [while to_crawl]. *)
Definition iteration (s : State) : State :=
  if crashed s then s
  else
    match to_crawl s with
    | [] => s
    | url :: rest =>
        let s := set_to_crawl rest s in
        if decide (url ∈ seen s) then s
        else
          let s := set_seen ({[url]} ∪ seen s) s in
          match in_scope url with
          | None => crash s
          | Some false => s
          | Some true =>
              match is_html url with
              | None => crash s
              | Some false => print (SkippingNonHtmlUrl url) s
              | Some true =>
                  let r := requests_get (length (fetched s)) url in
                  let s := request url s in
                  match r with
                  | None => print (FailedToFetch url) s
                  | Some r =>
                      if raise_for_status r then print (FailedToFetch url) s
                      else
                        let content_type :=
                          default "" (content_type_header r) in
                        if negb (has_substring "text/html" content_type)
                        then print (SkippingNonHtmlContent url content_type) s
                        else
                          let '(s, raised) := try_index url (text r) s in
                          if raised then print (ErrorParsing url) s else s
                  end
              end
          end
    end.

(** The state after [n] turns of the loop (fewer when it ends before). *)
Fixpoint run (n : nat) (s : State) : State :=
  match n with
  | O => s
  | S n' => run n' (iteration s)
  end.

(** The end of [main], once the queue is empty: the final flush, outside
    any [try]. *)
Definition finish (s : State) : State * bool :=
  flush_index (print (DoneTotal (page_count s)) s).

(** [main()], when the loop ends within [fuel] turns and nothing raised
    escapes it. *)
Definition main (START_URL : string) (fuel : nat) : option State :=
  let s := run fuel (initial START_URL) in
  match to_crawl s with
  | [] =>
      if crashed s then None
      else let '(s', raised) := finish s in
           if raised then None else Some s'
  | _ => None
  end.
End CrawlLoop.

(** ** The two scripts *)

(** [indexer_script.py]: a dequeued URL goes straight to [is_likely_html]. *)
Module Indexer.
Section Script.
Variable urlparse : string -> option PyLib.ParseResult.
Variable urljoin : string -> string -> option string.
Variable html_feed : string -> option (list Event).
Variable requests_get : nat -> string -> option Response.
Variable dump : nat -> Index -> bool.
(** [DOMAIN = urlparse(START_URL).netloc] *)
Variable DOMAIN : string.

(** The condition of [to_crawl.append(abs_link)]. *)
Definition link_wanted (seen : gset string) (abs_link : string)
  : option bool :=
  r ← urlparse abs_link;
  if String.eqb (PyLib.netloc r) DOMAIN && bool_decide (abs_link ∉ seen)
  then is_likely_html urlparse abs_link
  else Some false.

Definition enqueue_links :=
  enqueue_links urljoin link_wanted.

Definition try_index :=
  try_index urljoin html_feed dump link_wanted.

Definition iteration :=
  iteration urljoin html_feed requests_get dump
    (fun _ => Some true) (is_likely_html urlparse) link_wanted.

Definition run :=
  run urljoin html_feed requests_get dump
    (fun _ => Some true) (is_likely_html urlparse) link_wanted.

Definition main :=
  main urljoin html_feed requests_get dump
    (fun _ => Some true) (is_likely_html urlparse) link_wanted.
End Script.

Definition domain_of (urlparse : string -> option PyLib.ParseResult)
    (START_URL : string) : option string :=
  PyLib.netloc <$> urlparse START_URL.
End Indexer.

(** [indexer_script_prefixed.py].  Its [is_likely_html] makes the two tests
    of the unscoped one in a single condition, [ext in (...) or
    p.endswith('/')]; the same function stands for both. *)
Module Prefixed.
(** [PREFIX_DIR], from the path of the seed. *)
Definition prefix_dir (path : string) : string :=
  if endswith path "/" then path
  else first (rsplit1 "/" path) +:+ "/".

Section Script.
Variable urlparse : string -> option PyLib.ParseResult.
Variable urljoin : string -> string -> option string.
Variable html_feed : string -> option (list Event).
Variable requests_get : nat -> string -> option Response.
Variable dump : nat -> Index -> bool.
Variable DOMAIN : string.
Variable PREFIX_DIR : string.

(** [parsed_url.netloc != DOMAIN or not
    parsed_url.path.startswith(PREFIX_DIR)] makes the loop [continue]. *)
Definition in_scope (url : string) : option bool :=
  parsed_url ← urlparse url;
  Some (String.eqb (PyLib.netloc parsed_url) DOMAIN
        && startswith (PyLib.path parsed_url) PREFIX_DIR).

Definition link_wanted (seen : gset string) (abs_link : string)
  : option bool :=
  pl ← urlparse abs_link;
  if String.eqb (PyLib.netloc pl) DOMAIN
     && bool_decide (abs_link ∉ seen)
     && startswith (PyLib.path pl) PREFIX_DIR
  then is_likely_html urlparse abs_link
  else Some false.

Definition enqueue_links :=
  enqueue_links urljoin link_wanted.

Definition iteration :=
  iteration urljoin html_feed requests_get dump
    in_scope (is_likely_html urlparse) link_wanted.

Definition run :=
  run urljoin html_feed requests_get dump
    in_scope (is_likely_html urlparse) link_wanted.
End Script.

(** [DOMAIN] and [PREFIX_DIR] of a run started at [START_URL]. *)
Definition config_of (urlparse : string -> option PyLib.ParseResult)
    (START_URL : string) : option (string * string) :=
  parsed ← urlparse START_URL;
  Some (PyLib.netloc parsed, prefix_dir (PyLib.path parsed)).
End Prefixed.

(** ** The output file of the prefixed script *)

Module PrefixedOutput.
(** [s.strip(c)]: the leading and the trailing [c] removed. *)
Fixpoint lstrip (c : ascii) (s : string) : string :=
  match s with
  | String a s' => if Ascii.eqb a c then lstrip c s' else s
  | EmptyString => EmptyString
  end.

Fixpoint rstrip (c : ascii) (s : string) : string :=
  match s with
  | String a s' =>
      let r := rstrip c s' in
      if negb (truthy r) && Ascii.eqb a c then EmptyString else String a r
  | EmptyString => EmptyString
  end.

Definition strip (c : ascii) (s : string) : string := rstrip c (lstrip c s).

(** [PREFIX_NAME = PREFIX_DIR.strip('/').split('/')[-1] or 'root'] *)
Definition PREFIX_NAME (PREFIX_DIR : string) : string :=
  let name := PyStr.last (split "/" (strip "/" PREFIX_DIR)) in
  if truthy name then name else "root".

(** [OUTPUT_JSON = f'search_index_{PREFIX_NAME}.json'] *)
Definition OUTPUT_JSON (PREFIX_DIR : string) : string :=
  "search_index_" +:+ PREFIX_NAME PREFIX_DIR +:+ ".json".
End PrefixedOutput.

(** ** What the claims speak of *)

(** The positions of [term] in [tokens], counted from [pos], in reading
    order. *)
Fixpoint positions_from (pos : nat) (term : string) (tokens : list string)
  : list nat :=
  match tokens with
  | [] => []
  | x :: tokens' =>
      if decide (x = term) then pos :: positions_from (S pos) term tokens'
      else positions_from (S pos) term tokens'
  end.

Definition positions_of (term : string) (tokens : list string) : list nat :=
  positions_from 0 term tokens.

(** Re-indexing replaces: whatever postings a URL had, its postings after a
    pass depend on the tokens of the pass alone. *)
Definition reindexing_replaces : Prop :=
  ∀ (index1 index2 : Index) (U : string) (T : list string) (t : string),
    (∃ t1, is_Some (posting index1 t1 U)) →
    (∃ t2, is_Some (posting index2 t2 U)) →
    posting (index_tokens index1 U T) t U
    = posting (index_tokens index2 U T) t U.

(** The [href] attributes of a tag, whatever the case of their names. *)
Definition href_attrs (attrs : list (string * option string))
  : list (string * option string) :=
  filter (λ kv, lower kv.1 = "href") attrs.

(** The values of the [href] attributes of a tag that are not empty, in
    the order of the attributes. *)
Definition href_values (attrs : list (string * option string)) : list string :=
  omap (λ kv, match kv.2 with
              | Some v =>
                  if decide (lower kv.1 = "href" ∧ v ≠ "") then Some v
                  else None
              | None => None
              end) attrs.

(** First occurrence wins: an anchor tag with several [href] attributes
    yields the value of the first one, and nothing else. *)
Definition first_href_wins : Prop :=
  ∀ (self : LinkExtractor.t) (attrs : list (string * option string))
    (k v : string) (others : list (string * option string)),
    href_attrs attrs = (k, Some v) :: others →
    others ≠ [] → v ≠ "" →
    LinkExtractor.links (LinkExtractor.handle_starttag self "a" attrs)
    = LinkExtractor.links self ++ [v].


(** A document whose processing raises leaves no trace: the index and the
    queue are as they were when the [try] block was entered. *)
Definition failed_document_leaves_no_trace : Prop :=
  ∀ (urlparse : string → option PyLib.ParseResult)
    (urljoin : string → string → option string)
    (html_feed : string → option (list Event)) (dump : nat → Index → bool)
    (DOMAIN url html : string) (s s' : State),
    Indexer.try_index urlparse urljoin html_feed dump DOMAIN url html s
    = (s', true) →
    index s' = index s ∧ to_crawl s' = to_crawl s.

(** Dedup at discovery time: the links of a page enter an empty queue at
    most once each. *)
Definition queue_holds_a_url_once : Prop :=
  ∀ (urlparse : string → option PyLib.ParseResult)
    (urljoin : string → string → option string) (DOMAIN url : string)
    (seen : gset string) (hrefs : list string),
    NoDup (Indexer.enqueue_links urlparse urljoin DOMAIN url seen hrefs []).1.

(** The answers to a request after which the page is skipped: no answer,
    a 4xx or 5xx status, or a content type without [text/html]. *)
Definition fetch_skipped (r : option Response) : Prop :=
  match r with
  | None => True
  | Some resp =>
      (400 ≤ status_code resp < 600)%Z
      ∨ has_substring "text/html" (default "" (content_type_header resp))
        = false
  end.

(** A dequeued URL answered with a status outside 2xx changes neither the
    index nor the page counter, and adds nothing to the queue. *)
Definition non_2xx_skip_is_atomic : Prop :=
  ∀ (urlparse : string → option PyLib.ParseResult)
    (urljoin : string → string → option string)
    (html_feed : string → option (list Event))
    (requests_get : nat → string → option Response)
    (dump : nat → Index → bool) (DOMAIN : string)
    (s : State) (url : string) (rest : list string) (resp : Response),
    crashed s = false →
    to_crawl s = url :: rest →
    url ∉ seen s →
    is_likely_html urlparse url = Some true →
    requests_get (length (fetched s)) url = Some resp →
    ¬ (200 ≤ status_code resp < 300)%Z →
    let s' :=
      Indexer.iteration urlparse urljoin html_feed requests_get dump DOMAIN
        s in
    index s' = index s ∧ page_count s' = page_count s ∧ to_crawl s' = rest.

(** A page with a link that [urljoin] rejects, and a page answered with
    status 300. *)
Definition page_with_bad_link : string :=
  "<body>hello <a href='/y'>y</a><a href='//['>bad</a></body>".

Definition answer_300 (n : nat) (url : string) : option Response :=
  Some (mkResponse 300 (Some "text/html") "<body>hello</body>").

(** A request answered with status 404. *)
Definition answer_404 (n : nat) (url : string) : option Response :=
  Some (mkResponse 404 (Some "text/html") "<body>not found</body>").

(** ** What the further properties speak of *)

(** A character of a token: a word character that is not an upper-case
    letter. *)
Definition token_char (c : ascii) : bool := is_word c && negb (is_upper c).

(** A token as the tokenizer makes them: not empty, made of such
    characters. *)
Definition token_like (t : string) : bool :=
  truthy t && PyLib.all_chars token_char t.

(** The text nodes of a document, in document order. *)
Definition data_of (events : list Event) : list string :=
  omap (λ e, match e with Data data => Some data | _ => None end) events.

(** The tags the Text Extractor reacts to. *)
Definition is_body_tag (tag : string) : bool := String.eqb (lower tag) "body".

Definition is_skip_tag (tag : string) : bool :=
  PyLib.str_in (lower tag) ["script"; "style"; "head"].

(** Is there a start tag [body] among the events? *)
Definition has_body_start (events : list Event) : bool :=
  existsb (λ e, match e with StartTag tag _ => is_body_tag tag | _ => false end)
    events.

(** An event that leaves the flags of the Text Extractor alone: text, or a
    tag other than [body], [script], [style], [head]. *)
Definition plain_event (e : Event) : bool :=
  match e with
  | StartTag tag _ | EndTag tag => negb (is_body_tag tag || is_skip_tag tag)
  | Data _ => true
  end.

(** The links one event contributes. *)
Definition event_hrefs (e : Event) : list string :=
  match e with
  | StartTag tag attrs =>
      if decide (lower tag = "a") then href_values attrs else []
  | _ => []
  end.

(** A request answered with status 200 and a small page. *)
Definition answer_200 (n : nat) (url : string) : option Response :=
  Some (mkResponse 200 (Some "text/html; charset=utf-8")
          "<body>Hello <a href='/next.html'>next</a></body>").

(** No answer at all: every request raises. *)
Definition no_answer (n : nat) (url : string) : option Response := None.

(** A site of one page, which links to itself as [/]. *)
Definition answer_home (n : nat) (url : string) : option Response :=
  Some (mkResponse 200 (Some "text/html")
          "<body>home <a href='/'>home</a></body>").

(** Where a URL of the queue comes from: it is the seed, or an [href] of a
    requested page, cut at its first [#] and resolved against the URL of
    that page. *)
Definition discovered (urljoin : string → string → option string)
    (START_URL : string) (pages : list string) (u : string) : Prop :=
  u = START_URL
  ∨ ∃ page href,
      page ∈ pages ∧ urljoin page (first (split "#" href)) = Some u.

(** A disk on which every write of the index succeeds, and one on which
    every write fails. *)
Definition written (n : nat) (index : Index) : bool := true.

Definition disk_full (n : nat) (index : Index) : bool := false.

(** What one [href] does in the link loop of the page [url]: [None] when
    resolving or testing it raises, else the links it appends (one or
    none). *)
Definition href_outcome (urljoin : string → string → option string)
    (link_wanted : gset string → string → option bool) (url : string)
    (seen : gset string) (href : string) : option (list string) :=
  abs_link ← urljoin url (first (split "#" href));
  wanted ← link_wanted seen abs_link;
  Some (if wanted : bool then [abs_link] else []).

(** The links a list of [href]s appends, in order; [None] when one of them
    raises. *)
Fixpoint accepted_links (urljoin : string → string → option string)
    (link_wanted : gset string → string → option bool) (url : string)
    (seen : gset string) (hrefs : list string) : option (list string) :=
  match hrefs with
  | [] => Some []
  | href :: hrefs' =>
      out ← href_outcome urljoin link_wanted url seen href;
      outs ← accepted_links urljoin link_wanted url seen hrefs';
      Some (out ++ outs)
  end.

(** Two states that agree on the variables of [main], the requests sent
    and the calls of [flush_index]; they may differ in the lines printed. *)
Definition same_data (s s' : State) : Prop :=
  to_crawl s = to_crawl s' ∧ seen s = seen s' ∧ index s = index s'
  ∧ page_count s = page_count s' ∧ fetched s = fetched s'
  ∧ flushed s = flushed s' ∧ crashed s = crashed s'.

(** * Properties *)

(** ** The inverted index *)

Section index_facts.
Implicit Types (index : Index) (term url : string) (tokens : list string).

Lemma posting_add_occurrence_eq index term url pos :
  posting (add_occurrence index term url pos) term url
  = Some (default [] (posting index term url) ++ [pos]).
Proof.
  unfold posting, add_occurrence.
  rewrite lookup_insert_eq. simpl. rewrite lookup_insert_eq.
  destruct (index !! term) as [postings|]; simpl; [done|].
  by rewrite lookup_empty.
Qed.

Lemma posting_add_occurrence_ne index term url pos term' url' :
  term' ≠ term ∨ url' ≠ url →
  posting (add_occurrence index term url pos) term' url'
  = posting index term' url'.
Proof.
  intros Hne. unfold posting, add_occurrence.
  destruct (decide (term' = term)) as [->|Ht].
  - destruct Hne as [|Hu]; [done|].
    rewrite lookup_insert_eq. simpl. rewrite lookup_insert_ne by done.
    destruct (index !! term); simpl; [done|]. by rewrite lookup_empty.
  - by rewrite lookup_insert_ne.
Qed.

Lemma positions_from_absent pos term tokens :
  term ∉ tokens → positions_from pos term tokens = [].
Proof.
  revert pos. induction tokens as [|x tokens IH]; intros pos Hn; [done|].
  apply not_elem_of_cons in Hn as [Hx Hn]. simpl.
  destruct (decide (x = term)); [congruence|]. by apply IH.
Qed.

Lemma elem_of_positions_from pos term tokens i :
  i ∈ positions_from pos term tokens
  ↔ ∃ j, i = pos + j ∧ tokens !! j = Some term.
Proof.
  revert pos. induction tokens as [|x tokens IH]; intros pos; simpl.
  - split; [by intros ?%elem_of_nil | by intros (j & _ & ?)].
  - assert (i ∈ positions_from (S pos) term tokens
            ↔ ∃ j, i = pos + S j ∧ tokens !! j = Some term) as Htail.
    { rewrite IH. split; intros (j & -> & Hj); exists j; split; auto; lia. }
    destruct (decide (x = term)) as [->|Hx].
    + rewrite elem_of_cons, Htail. split.
      * intros [->|(j & -> & Hj)]; [exists 0 | exists (S j)]; split; auto; lia.
      * intros ([|j] & -> & Hj); [left; lia | right; eauto].
    + rewrite Htail. split.
      * intros (j & -> & Hj). exists (S j). auto.
      * intros ([|j] & -> & Hj); [simpl in Hj; congruence | eauto].
Qed.

Lemma positions_from_sorted pos term tokens :
  StronglySorted lt (positions_from pos term tokens).
Proof.
  revert pos. induction tokens as [|x tokens IH]; intros pos; simpl.
  - constructor.
  - destruct (decide (x = term)); [|apply IH].
    constructor; [apply IH|].
    apply Forall_forall. intros i Hi.
    apply elem_of_positions_from in Hi as (j & -> & _). lia.
Qed.

(** One indexing pass, seen from one term and the URL indexed. *)
Lemma posting_index_from tokens : ∀ pos index term url,
  posting (index_from pos tokens url index) term url
  = if decide (term ∈ tokens)
    then Some (default [] (posting index term url)
               ++ positions_from pos term tokens)
    else posting index term url.
Proof.
  induction tokens as [|x tokens IH]; intros pos index term url; simpl.
  - destruct (decide (term ∈ [])) as [Hin|]; [|done].
    by apply elem_of_nil in Hin.
  - rewrite IH. destruct (decide (x = term)) as [->|Hx].
    + rewrite posting_add_occurrence_eq. simpl.
      rewrite (decide_True (P := term ∈ term :: tokens)) by left.
      destruct (decide (term ∈ tokens)) as [Hin|Hin].
      * by rewrite <- app_assoc.
      * by rewrite positions_from_absent.
    + rewrite posting_add_occurrence_ne by (left; congruence).
      destruct (decide (term ∈ tokens)) as [Hin|Hin].
      * rewrite (decide_True (P := term ∈ x :: tokens)) by (by right).
        done.
      * rewrite (decide_False (P := term ∈ x :: tokens)); [done|].
        intros [?|?]%elem_of_cons; congruence.
Qed.

(** A pass leaves the postings of every other URL alone. *)
Lemma posting_index_from_other tokens : ∀ pos index term url url',
  url' ≠ url →
  posting (index_from pos tokens url index) term url'
  = posting index term url'.
Proof.
  induction tokens as [|x tokens IH]; intros pos index term url url' Hne;
    simpl; [done|].
  rewrite IH by done. apply posting_add_occurrence_ne. by right.
Qed.
End index_facts.

(** C1. A document indexed at a URL [U] that has no posting yet gets, for
    each of its terms [t], the posting made of all the zero-based positions
    [i] with [T[i] = t], in strictly increasing order; a term that does not
    occur gets none.  For [T = ["a"; "b"; "a"]] the posting of "a" is
    [[0; 2]] and that of "b" is [[1]]. *)
Theorem index_pass_postings (index : Index) (U : string) (T : list string) :
  (∀ t, posting index t U = None) →
  (∀ t, t ∈ T →
        posting (index_tokens index U T) t U = Some (positions_of t T))
  ∧ (∀ t, t ∉ T → posting (index_tokens index U T) t U = None)
  ∧ (∀ t, StronglySorted lt (positions_of t T))
  ∧ (∀ t i, i ∈ positions_of t T ↔ T !! i = Some t)
  ∧ (T = ["a"; "b"; "a"] →
     posting (index_tokens index U T) "a" U = Some [0; 2]
     ∧ posting (index_tokens index U T) "b" U = Some [1]).
Proof.
  intros Hfresh.
  assert (∀ t, t ∈ T →
            posting (index_tokens index U T) t U = Some (positions_of t T))
    as Hin.
  { intros t Ht. unfold index_tokens. rewrite posting_index_from.
    rewrite decide_True by done. by rewrite Hfresh. }
  split_and!.
  - exact Hin.
  - intros t Ht. unfold index_tokens. rewrite posting_index_from.
    by rewrite decide_False.
  - intros t. apply positions_from_sorted.
  - intros t i. unfold positions_of. rewrite elem_of_positions_from.
    split; [by intros (j & -> & Hj) | intros Hi; exists i; auto].
  - intros ->. split.
    + rewrite Hin; [reflexivity | set_solver].
    + rewrite Hin; [reflexivity | set_solver].
Qed.

Lemma index_pass_postings_example :
  posting (index_tokens ∅ "https://ex.com/" ["a"; "b"; "a"]) "a"
    "https://ex.com/" = Some [0; 2]
  ∧ posting (index_tokens ∅ "https://ex.com/" ["a"; "b"; "a"]) "b"
      "https://ex.com/" = Some [1].
Proof.
  apply (index_pass_postings ∅ "https://ex.com/" ["a"; "b"; "a"]).
  - intros t. reflexivity.
  - reflexivity.
Defined.

(** C6, as the code has it.  Indexing again at a URL appends: the posting of
    a term of the new document is the old posting followed by the positions
    of the term in the new document; the posting of any other term stays. *)
Theorem reindexing_appends (index : Index) (U : string) (T : list string)
    (t : string) :
  posting (index_tokens index U T) t U
  = if decide (t ∈ T)
    then Some (default [] (posting index t U) ++ positions_of t T)
    else posting index t U.
Proof. apply posting_index_from. Qed.

(** C6 fails as stated: indexing the document "a" at a URL gives "a" the
    posting [[0; 0]] when the URL was indexed with "a" before, and [[1; 0]]
    when it was indexed with "b a" before; a replaced posting would be
    [[0]] in both cases. *)
Lemma reindexing_does_not_replace : ¬ reindexing_replaces.
Proof.
  intros H.
  specialize (H (index_tokens ∅ "https://ex.com/" ["a"])
                (index_tokens ∅ "https://ex.com/" ["b"; "a"])
                "https://ex.com/" ["a"] "a").
  assert (posting (index_tokens (index_tokens ∅ "https://ex.com/" ["a"])
                     "https://ex.com/" ["a"]) "a" "https://ex.com/"
          = Some [0; 0]) as H1 by (vm_compute; reflexivity).
  assert (posting (index_tokens (index_tokens ∅ "https://ex.com/" ["b"; "a"])
                     "https://ex.com/" ["a"]) "a" "https://ex.com/"
          = Some [1; 0]) as H2 by (vm_compute; reflexivity).
  rewrite H1, H2 in H.
  assert (Some [0; 0] = Some [1; 0] → False) as Hne by discriminate.
  apply Hne, H; exists "a"; vm_compute; eauto.
Qed.

(** ** The extractors *)

Lemma truthy_true (s : string) : truthy s = true ↔ s ≠ "".
Proof. destruct s; simpl; split; intros; congruence. Qed.

Lemma append_hrefs_values attrs : ∀ links,
  LinkExtractor.append_hrefs links attrs = links ++ href_values attrs.
Proof.
  induction attrs as [|[k [v|]] attrs IH]; intros links; simpl.
  - by rewrite app_nil_r.
  - unfold href_values in *. simpl.
    destruct (String.eqb_spec (lower k) "href") as [Hk|Hk];
      destruct (truthy v) eqn:Hv; simpl; rewrite IH.
    + apply truthy_true in Hv.
      rewrite decide_True by done. simpl. by rewrite <- app_assoc.
    + rewrite decide_False; [done|]. intros [_ Hne].
      apply truthy_true in Hne. congruence.
    + rewrite decide_False; [done|]. by intros [? _].
    + rewrite decide_False; [done|]. by intros [? _].
  - unfold href_values in *. simpl. apply IH.
Qed.

(** C5, as the code has it.  For a start tag the Link Extractor appends, when
    the tag is an anchor, the value of every [href] attribute that is not
    empty, in the order of the attributes, and nothing otherwise; tag and
    attribute names are matched without case. *)
Theorem link_extractor_emits_every_href (self : LinkExtractor.t)
    (tag : string) (attrs : list (string * option string)) :
  LinkExtractor.links (LinkExtractor.handle_starttag self tag attrs)
  = (if decide (lower tag = "a")
     then LinkExtractor.links self ++ href_values attrs
     else LinkExtractor.links self)
  ∧ (∀ v, v ∈ href_values attrs → v ≠ "")
  ∧ href_values [("HREF", Some "x"); ("id", Some "y"); ("href", Some "");
                 ("href", None); ("Href", Some "z")] = ["x"; "z"].
Proof.
  split_and!.
  - unfold LinkExtractor.handle_starttag.
    destruct (String.eqb_spec (lower tag) "a") as [Ht|Ht].
    + rewrite decide_True by done. simpl. apply append_hrefs_values.
    + by rewrite decide_False.
  - intros v Hv. unfold href_values in Hv.
    apply list_elem_of_omap in Hv as ([k [w|]] & _ & Hw); simpl in Hw;
      [|done].
    destruct (decide (lower k = "href" ∧ w ≠ "")) as [[_ Hne]|]; [|done].
    congruence.
  - reflexivity.
Qed.

(** C5 fails as stated: for [<a href="x" href="y">] the Link Extractor
    emits both "x" and "y". *)
Lemma second_href_is_emitted : ¬ first_href_wins.
Proof.
  intros H.
  specialize (H LinkExtractor.init [("href", Some "x"); ("href", Some "y")]
                "href" "x" [("href", Some "y")]).
  assert (LinkExtractor.links
            (LinkExtractor.handle_starttag LinkExtractor.init "a"
               [("href", Some "x"); ("href", Some "y")]) = ["x"; "y"])
    as Hlinks by reflexivity.
  rewrite Hlinks in H.
  assert (["x"; "y"] = ["x"] → False) as Hne by discriminate.
  apply Hne, H; [reflexivity | discriminate | discriminate].
Qed.


(** ** Paths: [splitext], [is_likely_html] and [PREFIX_DIR] *)

Section path_facts.
Local Open Scope Z_scope.

Lemma append_nil_l (b : string) : "" +:+ b = b.
Proof. reflexivity. Qed.

Lemma append_cons (x : ascii) (a b : string) :
  String x a +:+ b = String x (a +:+ b).
Proof. reflexivity. Qed.

Lemma endswith_cons (a : ascii) (s p : string) :
  endswith (String a s) p = String.eqb (String a s) p || endswith s p.
Proof. reflexivity. Qed.

Lemma len_cons (a : ascii) (s : string) : len (String a s) = 1 + len s.
Proof. unfold len. cbn [String.length]. lia. Qed.

Lemma len_nonneg (s : string) : 0 ≤ len s.
Proof. unfold len. lia. Qed.

Lemma len_zero (s : string) : len s = 0 → s = "".
Proof. destruct s; [done|]. rewrite len_cons. pose proof (len_nonneg s). lia. Qed.

Lemma len_append (a b : string) : len (a +:+ b) = len a + len b.
Proof.
  induction a as [|x a IH].
  - rewrite append_nil_l. unfold len. simpl. lia.
  - rewrite append_cons, !len_cons, IH. lia.
Qed.

Lemma rfind_at_range (c : ascii) (s : string) : ∀ i,
  0 ≤ i → rfind_at c s i = -1 ∨ i ≤ rfind_at c s i < i + len s.
Proof.
  induction s as [|a s IH]; intros i Hi; [by left|].
  rewrite len_cons. simpl. pose proof (len_nonneg s).
  destruct (IH (i + 1)) as [Hr|Hr]; [lia| |].
  - rewrite Hr. simpl. destruct (Ascii.eqb a c); [right; lia | by left].
  - destruct (Z.leb_spec 0 (rfind_at c s (i + 1))); [right; lia | lia].
Qed.

Lemma endswith_rfind_at (c : ascii) (s : string) : ∀ i,
  0 ≤ i → endswith s (chr_of c) = true → rfind_at c s i = i + len s - 1.
Proof.
  induction s as [|a s IH]; intros i Hi Hend; [done|].
  rewrite len_cons. rewrite endswith_cons in Hend. simpl rfind_at.
  apply orb_true_iff in Hend as [Heq|Hend].
  - apply String.eqb_eq in Heq. unfold chr_of in Heq.
    injection Heq as -> ->. simpl.
    rewrite Ascii.eqb_refl. unfold len. simpl. lia.
  - rewrite (IH (i + 1)) by (done || lia).
    pose proof (len_nonneg s).
    destruct (Z.leb_spec 0 (i + 1 + len s - 1)); lia.
Qed.

(** The extension of a path that ends in a slash is empty. *)
Lemma splitext_directory (p : string) :
  endswith p "/" = true → PyLib.splitext p = (p, "").
Proof.
  intros Hend. unfold PyLib.splitext, rfind.
  rewrite (endswith_rfind_at "/" p 0) by done.
  destruct (rfind_at_range "." p 0) as [Hr|Hr]; [done| |].
  - rewrite Hr. pose proof (len_nonneg p).
    destruct (Z.ltb_spec (0 + len p - 1) (-1)); [lia | done].
  - destruct (Z.ltb_spec (0 + len p - 1) (rfind_at "." p 0)); [lia | done].
Qed.

Lemma find_at_range (c : ascii) (s : string) : ∀ i,
  0 ≤ i → find_at c s i = -1 ∨ i ≤ find_at c s i.
Proof.
  induction s as [|a s IH]; intros i Hi; simpl; [by left|].
  destruct (Ascii.eqb a c); [right; lia|].
  destruct (IH (i + 1)); [lia| by left | right; lia].
Qed.

Lemma absent_rfind_at (c : ascii) (s : string) : ∀ i j,
  0 ≤ i → find_at c s i < 0 → rfind_at c s j = -1.
Proof.
  induction s as [|a s IH]; intros i j Hi Hfind; simpl in *; [done|].
  destruct (Ascii.eqb a c); [lia|].
  by rewrite (IH (i + 1) (j + 1)) by (done || lia).
Qed.

Lemma absent_rfind (c : ascii) (s : string) :
  contains c s = false → ∀ j, rfind_at c s j = -1.
Proof.
  unfold contains, find. intros Hc j.
  apply (absent_rfind_at c s 0 j); [done|].
  by destruct (Z.leb_spec 0 (find_at c s 0)).
Qed.

Lemma rfind_at_last (c : ascii) (a b : string) : ∀ i,
  0 ≤ i → contains c b = false →
  rfind_at c (a +:+ String c b) i = i + len a.
Proof.
  induction a as [|x a IH]; intros i Hi Hb.
  - rewrite append_nil_l. simpl. rewrite absent_rfind by done. simpl.
    rewrite Ascii.eqb_refl. unfold len. simpl. lia.
  - rewrite append_cons. simpl.
    rewrite IH by (done || lia). rewrite len_cons.
    pose proof (len_nonneg a).
    destruct (Z.leb_spec 0 (i + 1 + len a)); lia.
Qed.

Lemma take_append (a b : string) : take (String.length a) (a +:+ b) = a.
Proof.
  induction a as [|x a IH].
  - rewrite append_nil_l. by destruct b.
  - rewrite append_cons. simpl. by rewrite IH.
Qed.

Lemma prefix_dir_of_file (a b : string) :
  contains "/" b = false → b ≠ "" →
  Prefixed.prefix_dir (a +:+ "/" +:+ b) = a +:+ "/".
Proof.
  intros Hb Hne. unfold Prefixed.prefix_dir.
  change ("/" +:+ b) with (String "/" b).
  assert (rfind "/" (a +:+ String "/" b) = len a) as Hr.
  { unfold rfind. rewrite rfind_at_last by done. lia. }
  destruct (endswith (a +:+ String "/" b) "/") eqn:Hend.
  - apply (endswith_rfind_at "/" _ 0) in Hend; [|done].
    unfold rfind in Hr. rewrite Hr, len_append, len_cons in Hend.
    destruct Hne. apply len_zero. lia.
  - unfold rsplit1. rewrite Hr.
    pose proof (len_nonneg a).
    destruct (Z.ltb_spec (len a) 0); [lia|]. simpl.
    unfold slice_to, len. by rewrite Nat2Z.id, take_append.
Qed.
End path_facts.

(** C8. For a URL with path [p] and extension [ext = splitext(p)[1]],
    [is_likely_html] is true when [ext] is empty, ".html" or ".htm", or when
    [p] ends in a slash, and false for any other extension.  It is true for
    [https://ex.com/dir/], [https://ex.com/page.htm] and
    [https://ex.com/page], false for [https://ex.com/file.pdf]. *)
Theorem is_likely_html_extensions
    (urlparse : string → option PyLib.ParseResult) (url : string)
    (r : PyLib.ParseResult) :
  urlparse url = Some r →
  let p := PyLib.path r in
  let ext := (PyLib.splitext p).2 in
  (ext = "" ∨ ext = ".html" ∨ ext = ".htm" ∨ endswith p "/" = true →
   is_likely_html urlparse url = Some true)
  ∧ (ext ≠ "" → ext ≠ ".html" → ext ≠ ".htm" →
     is_likely_html urlparse url = Some false)
  ∧ is_likely_html PyLib.urlparse "https://ex.com/dir/" = Some true
  ∧ is_likely_html PyLib.urlparse "https://ex.com/page.htm" = Some true
  ∧ is_likely_html PyLib.urlparse "https://ex.com/page" = Some true
  ∧ is_likely_html PyLib.urlparse "https://ex.com/file.pdf" = Some false.
Proof.
  intros Hr p ext.
  assert (is_likely_html urlparse url
          = Some (html_ext ext || endswith p "/")) as Heq.
  { unfold is_likely_html. rewrite Hr. simpl. fold p.
    subst ext. destruct (PyLib.splitext p) as [root e]. simpl.
    destruct (html_ext e); [done|]. by destruct (endswith p "/"). }
  split_and!; try (vm_compute; reflexivity).
  - rewrite Heq. intros [He|[He|[He|Hend]]]; try (by rewrite He).
    rewrite Hend. by rewrite orb_true_r.
  - intros H1 H2 H3. rewrite Heq.
    assert (html_ext ext = false) as ->.
    { unfold html_ext, PyLib.str_in. simpl.
      destruct (String.eqb_spec ext ""); [done|].
      destruct (String.eqb_spec ext ".html"); [done|].
      by destruct (String.eqb_spec ext ".htm"). }
    destruct (endswith p "/") eqn:Hend; [|done].
    subst ext. rewrite splitext_directory in H1 by done. done.
Qed.

Lemma is_likely_html_extensions_example :
  is_likely_html PyLib.urlparse "https://ex.com/a.b/index.html" = Some true.
Proof.
  pose proof (is_likely_html_extensions PyLib.urlparse
                "https://ex.com/a.b/index.html"
                (PyLib.mkParseResult "https" "ex.com" "/a.b/index.html" "" "" "")
                eq_refl) as [H _].
  apply H. right. left. reflexivity.
Defined.

(** ** The crawl loop *)

Section crawl_facts.
Variable urljoin : string → string → option string.
Variable html_feed : string → option (list Event).
Variable requests_get : nat → string → option Response.
Variable dump : nat → Index → bool.
Variable in_scope : string → option bool.
Variable is_html : string → option bool.
Variable link_wanted : gset string → string → option bool.

Local Abbreviation links_loop := (enqueue_links urljoin link_wanted).
Local Abbreviation try_block := (try_index urljoin html_feed dump link_wanted).
Local Abbreviation turn :=
  (iteration urljoin html_feed requests_get dump in_scope is_html link_wanted).
Local Abbreviation turns :=
  (run urljoin html_feed requests_get dump in_scope is_html link_wanted).

(** The link loop only appends, and only links that pass the condition. *)
Lemma enqueue_links_appends url seen hrefs : ∀ queue,
  ∃ new, (links_loop url seen hrefs queue).1 = queue ++ new
         ∧ Forall (λ link, link_wanted seen link = Some true) new.
Proof.
  induction hrefs as [|href hrefs IH]; intros queue; simpl.
  - exists []. by rewrite app_nil_r.
  - destruct (urljoin url _) as [abs_link|]; simpl;
      [|exists []; by rewrite app_nil_r].
    destruct (link_wanted seen abs_link) as [[]|] eqn:Hw; simpl.
    + destruct (IH (queue ++ [abs_link])) as (new & -> & Hnew).
      exists (abs_link :: new). rewrite <- app_assoc. split; [done|].
      by constructor.
    + apply IH.
    + exists []. by rewrite app_nil_r.
Qed.

Lemma enqueue_links_cons url seen href hrefs queue abs_link :
  urljoin url (first (split "#" href)) = Some abs_link →
  links_loop url seen (href :: hrefs) queue
  = match link_wanted seen abs_link with
    | None => (queue, true)
    | Some true => links_loop url seen hrefs (queue ++ [abs_link])
    | Some false => links_loop url seen hrefs queue
    end.
Proof. intros Hjoin. simpl. by rewrite Hjoin. Qed.

(** The link loop, [href] by [href]: it ends without an error with the
    links of all of them appended, or stops at the first [href] that
    raises, with the links of those before it appended. *)
Lemma enqueue_links_outcome url seen hrefs : ∀ queue,
  let '(queue', raised) := links_loop url seen hrefs queue in
  if raised
  then ∃ before bad after outs,
         hrefs = before ++ bad :: after
         ∧ accepted_links urljoin link_wanted url seen before = Some outs
         ∧ href_outcome urljoin link_wanted url seen bad = None
         ∧ queue' = queue ++ outs
  else ∃ outs,
         accepted_links urljoin link_wanted url seen hrefs = Some outs
         ∧ queue' = queue ++ outs.
Proof.
  induction hrefs as [|href hrefs IH]; intros queue.
  - simpl. exists []. by rewrite app_nil_r.
  - destruct (urljoin url (first (split "#" href))) as [abs_link|] eqn:Hjoin.
    2: { cbn [enqueue_links]. rewrite Hjoin.
         exists [], href, hrefs, []. unfold href_outcome. rewrite Hjoin.
         split_and!; try done. by rewrite app_nil_r. }
    destruct (link_wanted seen abs_link) as [wanted|] eqn:Hw.
    2: { cbn [enqueue_links]. rewrite Hjoin, Hw.
         exists [], href, hrefs, []. unfold href_outcome.
         rewrite Hjoin. simpl. rewrite Hw.
         split_and!; try done. by rewrite app_nil_r. }
    assert (href_outcome urljoin link_wanted url seen href
            = Some (if wanted then [abs_link] else [])) as Hout.
    { unfold href_outcome. rewrite Hjoin. simpl. by rewrite Hw. }
    rewrite (enqueue_links_cons url seen href hrefs queue abs_link Hjoin).
    rewrite Hw. cbn [accepted_links]. rewrite Hout.
    destruct wanted.
    + specialize (IH (queue ++ [abs_link])).
      destruct (links_loop url seen hrefs (queue ++ [abs_link]))
        as [queue' raised].
      destruct raised.
      * destruct IH as (before & bad & after & outs & -> & Hacc & Hbad & ->).
        exists (href :: before), bad, after, (abs_link :: outs).
        split_and!; try done.
        -- cbn [accepted_links]. rewrite Hout, Hacc. done.
        -- by rewrite <- app_assoc.
      * destruct IH as (outs & Hacc & ->).
        exists (abs_link :: outs). rewrite Hacc. simpl.
        split; [done | by rewrite <- app_assoc].
    + specialize (IH queue).
      destruct (links_loop url seen hrefs queue) as [queue' raised].
      destruct raised.
      * destruct IH as (before & bad & after & outs & -> & Hacc & Hbad & ->).
        exists (href :: before), bad, after, outs.
        split_and!; try done.
        cbn [accepted_links]. rewrite Hout, Hacc. done.
      * destruct IH as (outs & Hacc & ->).
        exists outs. rewrite Hacc. simpl. done.
Qed.

(** Every link the loop appends is an [href] of the page, cut at its first
    [#] and resolved against the URL of the page. *)
Lemma enqueue_links_origin url seen hrefs : ∀ queue,
  ∃ new, (links_loop url seen hrefs queue).1 = queue ++ new
         ∧ Forall (λ u, ∃ href, href ∈ hrefs
                      ∧ urljoin url (first (split "#" href)) = Some u) new.
Proof.
  induction hrefs as [|href hrefs IH]; intros queue; simpl.
  - exists []. by rewrite app_nil_r.
  - destruct (urljoin url _) as [abs_link|] eqn:Hjoin; simpl;
      [|exists []; by rewrite app_nil_r].
    assert (∀ new,
              Forall (λ u, ∃ href0, href0 ∈ hrefs
                         ∧ urljoin url (first (split "#" href0)) = Some u) new
              → Forall (λ u, ∃ href0, href0 ∈ href :: hrefs
                           ∧ urljoin url (first (split "#" href0)) = Some u)
                  new) as Hmore.
    { intros new Hnew. eapply Forall_impl; [exact Hnew|].
      intros u (href0 & Hin & Hu). exists href0. split; [|done].
      by apply elem_of_cons; right. }
    destruct (link_wanted seen abs_link) as [[]|] eqn:Hw; simpl.
    + destruct (IH (queue ++ [abs_link])) as (new & -> & Hnew).
      exists (abs_link :: new). rewrite <- app_assoc. split; [done|].
      constructor; [|by apply Hmore].
      exists href. split; [by apply elem_of_cons; left | done].
    + destruct (IH queue) as (new & -> & Hnew).
      exists new. split; [done | by apply Hmore].
    + exists []. by rewrite app_nil_r.
Qed.

Lemma try_index_links url html s :
  ∃ new, to_crawl (try_block url html s).1 = to_crawl s ++ new
         ∧ Forall (λ u, ∃ href,
                      urljoin url (first (split "#" href)) = Some u) new.
Proof.
  unfold try_index.
  destruct (html_feed html) as [events|] eqn:Hfeed;
    [|exists []; by rewrite app_nil_r].
  simpl.
  destruct (enqueue_links_origin url (seen s)
              (LinkExtractor.links
                 (LinkExtractor.feed LinkExtractor.init events))
              (to_crawl s)) as (new & Hq & Hnew).
  exists new. split.
  - destruct (links_loop url (seen s) _ (to_crawl s))
      as [queue raised] eqn:Hloop.
    simpl in Hq. subst queue.
    destruct raised; simpl; [done|].
    destruct (Nat.eqb _ 0); simpl; [|done].
    unfold flush_index. by destruct (dump _ _).
  - eapply Forall_impl; [exact Hnew|]. intros u (href & _ & Hu). by eexists.
Qed.

(** What the [try] block may change. *)
Lemma try_index_frame url html s :
  let '(s', raised) := try_block url html s in
  seen s' = seen s ∧ fetched s' = fetched s ∧ crashed s' = crashed s
  ∧ (∃ new, to_crawl s' = to_crawl s ++ new
            ∧ Forall (λ link, link_wanted (seen s) link = Some true) new)
  ∧ (html_feed html = None → s' = s ∧ raised = true)
  ∧ (∀ events, html_feed html = Some events →
       index s' = index_tokens (index s) url
                    (tokenize (TextExtractor.text
                                 (TextExtractor.feed TextExtractor.init
                                    events)))).
Proof.
  unfold try_index.
  destruct (html_feed html) as [events|] eqn:Hfeed.
  - simpl.
    destruct (enqueue_links_appends url (seen s)
                (LinkExtractor.links
                   (LinkExtractor.feed LinkExtractor.init events))
                (to_crawl s)) as (new & Hq & Hnew).
    destruct (links_loop url (seen s) _ (to_crawl s))
      as [queue raised] eqn:Hloop.
    simpl in Hq. subst queue.
    destruct raised; simpl.
    + split_and!; eauto; try done. intros ? [= <-]. done.
    + destruct (Nat.eqb _ 0); simpl.
      * unfold flush_index. destruct (dump _ _); simpl;
          (split_and!; eauto; try done; intros ? [= <-]; done).
      * split_and!; eauto; try done. intros ? [= <-]. done.
  - split_and!; eauto; try done.
    exists []. by rewrite app_nil_r.
Qed.
(** A turn of the loop that sends the request for [url]. *)
Lemma iteration_fetch s url rest :
  crashed s = false → to_crawl s = url :: rest → url ∉ seen s →
  in_scope url = Some true → is_html url = Some true →
  turn s
  = let s1 :=
      request url (set_seen ({[url]} ∪ seen s) (set_to_crawl rest s)) in
    match requests_get (length (fetched s)) url with
    | None => print (FailedToFetch url) s1
    | Some r =>
        if raise_for_status r then print (FailedToFetch url) s1
        else if negb (has_substring "text/html"
                        (default "" (content_type_header r)))
        then print (SkippingNonHtmlContent url
                      (default "" (content_type_header r))) s1
        else let '(s2, raised) := try_block url (text r) s1 in
             if raised then print (ErrorParsing url) s2 else s2
    end.
Proof.
  intros Hc Hq Hseen Hscope Hhtml. unfold iteration.
  rewrite Hc, Hq. simpl. rewrite decide_False by done.
  rewrite Hscope, Hhtml. reflexivity.
Qed.

(** A turn only adds to [seen]; it sends at most one request, for a URL
    that was not in [seen] and is in it afterwards. *)
Lemma iteration_requests s :
  seen s ⊆ seen (turn s)
  ∧ ∃ new, fetched (turn s) = fetched s ++ new
           ∧ NoDup new
           ∧ ∀ u, u ∈ new → (u ∉ seen s) ∧ u ∈ seen (turn s).
Proof.
  assert (∀ s0 : State, seen s0 = seen s → fetched s0 = fetched s →
            seen s ⊆ seen s0
            ∧ ∃ new, fetched s0 = fetched s ++ new ∧ NoDup new
                     ∧ ∀ u, u ∈ new → (u ∉ seen s) ∧ u ∈ seen s0) as Hsame.
  { intros s0 Hs Hf. split; [by rewrite Hs|]. exists [].
    rewrite app_nil_r. split_and!; [done|constructor|].
    by intros u ?%elem_of_nil. }
  unfold iteration.
  destruct (crashed s) eqn:Hc; [by apply Hsame|].
  destruct (to_crawl s) as [|url rest] eqn:Hq; [by apply Hsame|].
  simpl. destruct (decide (url ∈ seen s)) as [Hin|Hin]; [by apply Hsame|].
  assert (∀ s0 : State, seen s0 = {[url]} ∪ seen s →
            fetched s0 = fetched s ∨ fetched s0 = fetched s ++ [url] →
            seen s ⊆ seen s0
            ∧ ∃ new, fetched s0 = fetched s ++ new ∧ NoDup new
                     ∧ ∀ u, u ∈ new → (u ∉ seen s) ∧ u ∈ seen s0) as Hadd.
  { intros s0 Hs [Hf|Hf]; (split; [rewrite Hs; apply union_subseteq_r|]).
    - exists []. rewrite app_nil_r. split_and!; [done|constructor|].
      by intros u ?%elem_of_nil.
    - exists [url]. split_and!; [done|apply NoDup_singleton|].
      intros u ->%list_elem_of_singleton. split; [done|].
      rewrite Hs. apply elem_of_union_l. by apply elem_of_singleton. }
  destruct (in_scope url) as [[]|]; [|by apply Hadd; auto..].
  destruct (is_html url) as [[]|]; [|by apply Hadd; auto..].
  destruct (requests_get _ url) as [r|]; [|by apply Hadd; auto].
  destruct (raise_for_status r); [by apply Hadd; auto|].
  destruct (negb _); [by apply Hadd; auto|].
  pose proof (try_index_frame url (text r)
                (request url
                   (set_seen ({[url]} ∪ seen s) (set_to_crawl rest s))))
    as Hframe.
  destruct (try_block url (text r) _) as [s2 raised].
  destruct Hframe as (Hs & Hf & _).
  destruct raised; apply Hadd; auto.
Qed.

Lemma run_add n m s : turns (n + m) s = turns m (turns n s).
Proof. revert s. induction n as [|n IH]; intros s; simpl; [done|apply IH]. Qed.

Lemma run_requests n : ∀ s,
  seen s ⊆ seen (turns n s)
  ∧ ∃ new, fetched (turns n s) = fetched s ++ new
           ∧ NoDup new
           ∧ ∀ u, u ∈ new → (u ∉ seen s) ∧ u ∈ seen (turns n s).
Proof.
  induction n as [|n IH]; intros s; simpl.
  - split; [done|]. exists []. rewrite app_nil_r.
    split_and!; [done|constructor|]. by intros u ?%elem_of_nil.
  - destruct (iteration_requests s) as (Hsub1 & new1 & Hf1 & Hnd1 & Hnew1).
    destruct (IH (turn s)) as (Hsub2 & new2 & Hf2 & Hnd2 & Hnew2).
    split; [by etrans|]. exists (new1 ++ new2).
    split_and!.
    + rewrite Hf2, Hf1. by rewrite <- app_assoc.
    + apply NoDup_app. split_and!; [done| |done].
      intros u Hu1 Hu2. apply Hnew1 in Hu1. apply Hnew2 in Hu2. tauto.
    + intros u [Hu|Hu]%elem_of_app.
      * apply Hnew1 in Hu as [Hu Hu']. split; [done | by apply Hsub2].
      * apply Hnew2 in Hu as [Hu Hu']. split; [|done].
        intros Hin. by apply Hu, Hsub1.
Qed.

(** Every URL requested is in [seen], and no URL is requested twice,
    whatever the state the loop starts in, provided this holds there. *)
Lemma run_fetched_once n s :
  NoDup (fetched s) → (∀ u, u ∈ fetched s → u ∈ seen s) →
  NoDup (fetched (turns n s))
  ∧ (∀ u, u ∈ fetched (turns n s) → u ∈ seen (turns n s)).
Proof.
  intros Hnd Hseen.
  destruct (run_requests n s) as (Hsub & new & Hf & Hndnew & Hnew).
  rewrite Hf. split.
  - apply NoDup_app. split_and!; [done| |done].
    intros u Hu Hu'. apply Hnew in Hu'. apply Hseen in Hu. tauto.
  - intros u [Hu|Hu]%elem_of_app; [by apply Hsub, Hseen | by apply Hnew].
Qed.

(** A turn puts the URL it takes from the queue into [seen]. *)
Lemma iteration_marks_seen s url rest :
  crashed s = false → to_crawl s = url :: rest → url ∈ seen (turn s).
Proof.
  intros Hc Hq. unfold iteration. rewrite Hc, Hq. simpl.
  destruct (decide (url ∈ seen s)) as [Hin|Hin]; [done|].
  assert (url ∈ {[url]} ∪ seen s) as Hurl
    by (apply elem_of_union_l; by apply elem_of_singleton).
  destruct (in_scope url) as [[]|]; [|done..].
  destruct (is_html url) as [[]|]; [|done..].
  destruct (requests_get _ url) as [r|]; [|done].
  destruct (raise_for_status r); [done|].
  destruct (negb _); [done|].
  pose proof (try_index_frame url (text r)
                (request url
                   (set_seen ({[url]} ∪ seen s) (set_to_crawl rest s))))
    as Hframe.
  destruct (try_block url (text r) _) as [s2 raised].
  destruct Hframe as (Hs & _).
  destruct raised; simpl; by rewrite Hs.
Qed.

(** Past [is_likely_html], nothing a turn does can end the loop. *)
Lemma iteration_fetch_continues s url rest :
  crashed s = false → to_crawl s = url :: rest → url ∉ seen s →
  in_scope url = Some true → is_html url = Some true →
  crashed (turn s) = false.
Proof.
  intros Hc Hq Hseen Hscope Hhtml.
  rewrite (iteration_fetch s url rest) by done. simpl.
  destruct (requests_get _ url) as [r|]; [|exact Hc].
  destruct (raise_for_status r); [exact Hc|].
  destruct (negb _); [exact Hc|].
  pose proof (try_index_frame url (text r)
                (request url
                   (set_seen ({[url]} ∪ seen s) (set_to_crawl rest s))))
    as Hframe.
  destruct (try_block url (text r) _) as [s2 raised].
  destruct Hframe as (_ & _ & Hcr & _).
  destruct raised; simpl; rewrite Hcr; exact Hc.
Qed.
End crawl_facts.

(** ** The unscoped script *)

Section indexer_facts.
Variable urlparse : string → option PyLib.ParseResult.
Variable urljoin : string → string → option string.
Variable html_feed : string → option (list Event).
Variable requests_get : nat → string → option Response.
Variable dump : nat → Index → bool.
Variable DOMAIN : string.

Local Abbreviation links_loop :=
  (Indexer.enqueue_links urlparse urljoin DOMAIN).
Local Abbreviation try_block :=
  (Indexer.try_index urlparse urljoin html_feed dump DOMAIN).
Local Abbreviation turn :=
  (Indexer.iteration urlparse urljoin html_feed requests_get dump DOMAIN).
Local Abbreviation turns :=
  (Indexer.run urlparse urljoin html_feed requests_get dump DOMAIN).

Lemma link_wanted_seen (seen : gset string) (abs_link : string)
    (r : PyLib.ParseResult) :
  urlparse abs_link = Some r → abs_link ∈ seen →
  Indexer.link_wanted urlparse DOMAIN seen abs_link = Some false.
Proof.
  intros Hparse Hin. unfold Indexer.link_wanted. rewrite Hparse. simpl.
  rewrite (bool_decide_eq_false_2 (abs_link ∉ seen)) by tauto.
  by rewrite andb_false_r.
Qed.

Lemma link_wanted_new (seen : gset string) (abs_link : string)
    (r : PyLib.ParseResult) :
  urlparse abs_link = Some r → abs_link ∉ seen →
  PyLib.netloc r = DOMAIN →
  is_likely_html urlparse abs_link = Some true →
  Indexer.link_wanted urlparse DOMAIN seen abs_link = Some true.
Proof.
  intros Hparse Hnot Hdom Hhtml. unfold Indexer.link_wanted.
  rewrite Hparse. simpl.
  rewrite (bool_decide_eq_true_2 (abs_link ∉ seen)) by done.
  by rewrite Hdom, String.eqb_refl.
Qed.

(** C10, as the code has it.  When the request for a dequeued URL raises,
    or is answered with a 4xx or 5xx status, or with a content type
    without [text/html], the turn changes neither the index nor the page
    counter, writes no index, and leaves as queue what remained when the
    URL was taken from it; the URL joins [seen]. *)
Theorem skipped_fetch_is_atomic (s : State) (url : string)
    (rest : list string) :
  crashed s = false →
  to_crawl s = url :: rest →
  url ∉ seen s →
  is_likely_html urlparse url = Some true →
  fetch_skipped (requests_get (length (fetched s)) url) →
  let s' := turn s in
  index s' = index s
  ∧ page_count s' = page_count s
  ∧ to_crawl s' = rest
  ∧ flushed s' = flushed s
  ∧ seen s' = {[url]} ∪ seen s
  ∧ crashed s' = false.
Proof.
  intros Hc Hq Hseen Hhtml Hskip s'. subst s'.
  unfold Indexer.iteration.
  rewrite (iteration_fetch _ _ _ _ _ _ _ s url rest) by done. simpl.
  destruct (requests_get _ url) as [r|]; [|by simpl].
  simpl in Hskip. unfold raise_for_status.
  destruct Hskip as [[Hlo Hhi]|Hct].
  - apply Z.leb_le in Hlo. apply Z.ltb_lt in Hhi. rewrite Hlo, Hhi.
    by simpl.
  - destruct (_ && _); [by simpl|].
    rewrite Hct. by simpl.
Qed.

(** C2, as the code has it.  When the [try] block raises, the error is
    caught and the loop goes on with the state the block has reached:
    nothing is undone.  There are three places where it can raise.
    (1) The parser raises on the body: nothing has changed.
    (2) A link raises ([urljoin] or [urlparse] rejects it): the postings
    of the document are in the index, the queue has gained exactly the
    links accepted from the [href]s before the failing one, the page is
    not counted and [flush_index] is not called.
    (3) The write of [flush_index] raises, on a page whose count is a
    multiple of [FLUSH_EVERY]: the postings are in the index, the queue
    has gained the accepted links of all [href]s, and the page is
    counted. *)
Theorem parse_error_is_contained (url html : string) (s s' : State) :
  try_block url html s = (s', true) →
  let link_ok := Indexer.link_wanted urlparse DOMAIN in
  let postings events :=
    index_tokens (index s) url
      (tokenize (TextExtractor.text
                   (TextExtractor.feed TextExtractor.init events))) in
  let hrefs events :=
    LinkExtractor.links (LinkExtractor.feed LinkExtractor.init events) in
  seen s' = seen s ∧ fetched s' = fetched s ∧ crashed s' = crashed s
  ∧ ((html_feed html = None ∧ s' = s)
     ∨ (∃ events before bad after outs,
          html_feed html = Some events
          ∧ hrefs events = before ++ bad :: after
          ∧ accepted_links urljoin link_ok url (seen s) before = Some outs
          ∧ href_outcome urljoin link_ok url (seen s) bad = None
          ∧ index s' = postings events
          ∧ to_crawl s' = to_crawl s ++ outs
          ∧ page_count s' = page_count s
          ∧ flushed s' = flushed s
          ∧ log s' = log s)
     ∨ (∃ events outs,
          html_feed html = Some events
          ∧ accepted_links urljoin link_ok url (seen s) (hrefs events)
            = Some outs
          ∧ (page_count s + 1) mod FLUSH_EVERY = 0
          ∧ dump (length (flushed s)) (postings events) = false
          ∧ index s' = postings events
          ∧ to_crawl s' = to_crawl s ++ outs
          ∧ page_count s' = page_count s + 1
          ∧ flushed s' = flushed s ++ [postings events]
          ∧ log s' = log s ++ [IndexedPages (page_count s + 1)
                                 (length (to_crawl s ++ outs))]))
  ∧ (∀ st rest r,
       crashed st = false → to_crawl st = url :: rest → url ∉ seen st →
       is_likely_html urlparse url = Some true →
       requests_get (length (fetched st)) url = Some r →
       raise_for_status r = false →
       has_substring "text/html" (default "" (content_type_header r))
       = true →
       text r = html →
       s = request url
             (set_seen ({[url]} ∪ seen st) (set_to_crawl rest st)) →
       turn st = print (ErrorParsing url) s'
       ∧ crashed (turn st) = false).
Proof.
  intros Htry link_ok postings hrefs.
  assert (seen s' = seen s ∧ fetched s' = fetched s
          ∧ crashed s' = crashed s) as (Hseen & Hfetched & Hcrashed).
  { pose proof (try_index_frame urljoin html_feed dump link_ok url html s)
      as Hframe.
    unfold Indexer.try_index in Htry. fold link_ok in Htry.
    rewrite Htry in Hframe. by destruct Hframe as (? & ? & ? & _). }
  split_and!; try done.
  - unfold Indexer.try_index, try_index in Htry. fold link_ok in Htry.
    destruct (html_feed html) as [events|] eqn:Hfeed.
    2: { injection Htry as <-. by left. }
    right. cbv zeta in Htry. fold (postings events) (hrefs events) in Htry.
    pose proof (enqueue_links_outcome urljoin link_ok url (seen s)
                  (hrefs events) (to_crawl s)) as Hloop.
    cbn [seen to_crawl set_index] in Htry.
    destruct (enqueue_links urljoin link_ok url (seen s) (hrefs events)
                (to_crawl s)) as [queue raised].
    destruct raised.
    + left. injection Htry as <-.
      destruct Hloop as (before & bad & after & outs & Hh & Hacc & Hbad & ->).
      exists events, before, bad, after, outs. by split_and!.
    + right. destruct Hloop as (outs & Hacc & ->).
      cbn [page_count set_page_count set_to_crawl to_crawl] in Htry.
      destruct (Nat.eqb _ 0) eqn:Hmod; [|discriminate].
      apply Nat.eqb_eq in Hmod.
      unfold flush_index in Htry.
      cbn [print flushed index] in Htry.
      destruct (dump _ _) eqn:Hdump; [discriminate|].
      injection Htry as <-.
      exists events, outs. by split_and!.
  - intros st rest r Hc Hq Hnot Hhtml Hget Hstatus Htype <- ->.
    assert (turn st = print (ErrorParsing url) s') as Hturn.
    { unfold Indexer.iteration.
      rewrite (iteration_fetch _ _ _ _ _ _ _ st url rest) by done.
      cbv zeta. rewrite Hget, Hstatus, Htype. cbn [negb].
      unfold Indexer.try_index in Htry. by rewrite Htry. }
    split; [exact Hturn|]. rewrite Hturn. cbn [crashed print].
    rewrite Hcrashed. exact Hc.
Qed.

(** C3, as the code has it.  A resolved link that is in [seen] is not
    appended; one that is not, and passes the domain and extension tests,
    is appended to the end of the queue.  Appending does not touch [seen]:
    a URL enters [seen] when it is dequeued, and a dequeued URL found in
    [seen] is dropped without a request. *)
Theorem dedup_at_dequeue :
  (∀ url seen href hrefs queue abs_link r,
     urljoin url (first (split "#" href)) = Some abs_link →
     urlparse abs_link = Some r →
     (abs_link ∈ seen →
      links_loop url seen (href :: hrefs) queue
      = links_loop url seen hrefs queue)
     ∧ (abs_link ∉ seen → PyLib.netloc r = DOMAIN →
        is_likely_html urlparse abs_link = Some true →
        links_loop url seen (href :: hrefs) queue
        = links_loop url seen hrefs (queue ++ [abs_link])))
  ∧ (∀ url html s, seen (try_block url html s).1 = seen s)
  ∧ (∀ s url rest,
       crashed s = false → to_crawl s = url :: rest → url ∈ seen s →
       turn s = set_to_crawl rest s)
  ∧ (∀ s url rest,
       crashed s = false → to_crawl s = url :: rest → url ∉ seen s →
       url ∈ seen (turn s)).
Proof.
  split_and!.
  - intros url seen href hrefs queue abs_link r Hjoin Hparse.
    unfold Indexer.enqueue_links.
    rewrite (enqueue_links_cons _ _ url seen href hrefs queue abs_link Hjoin).
    split.
    + intros Hin. by rewrite (link_wanted_seen seen abs_link r).
    + intros Hnot Hdom Hhtml. by rewrite (link_wanted_new seen abs_link r).
  - intros url html s.
    pose proof (try_index_frame urljoin html_feed dump
                  (Indexer.link_wanted urlparse DOMAIN) url html s) as Hframe.
    unfold Indexer.try_index.
    destruct (try_index _ _ _ _ _ _) as [s' raised]. by destruct Hframe.
  - intros s url rest Hc Hq Hin.
    unfold Indexer.iteration, iteration. rewrite Hc, Hq. simpl.
    by rewrite decide_True.
  - intros s url rest Hc Hq _.
    by apply (iteration_marks_seen _ _ _ _ _ _ _ s url rest).
Qed.
End indexer_facts.

(** C4 at a seed with a fragment.  Links are cut at [#] before they are
    queued, the seed is queued as given: started at
    [https://ex.com/#top] on a site whose page links to [/], the script
    requests [https://ex.com/#top] and then [https://ex.com/], two URLs
    that are equal after fragment stripping, and indexes the page under
    both. *)
Theorem seed_with_fragment_is_fetched_twice :
  let START_URL := "https://ex.com/#top" in
  let s :=
    Indexer.run PyLib.urlparse PyLib.urljoin HtmlModel.feed answer_home
      written "ex.com" 2 (initial START_URL) in
  Indexer.domain_of PyLib.urlparse START_URL = Some "ex.com"
  ∧ first (split "#" START_URL) = "https://ex.com/"
  ∧ PyLib.urljoin START_URL (first (split "#" "/")) = Some "https://ex.com/"
  ∧ fetched s = ["https://ex.com/#top"; "https://ex.com/"]
  ∧ to_crawl s = []
  ∧ page_count s = 2
  ∧ posting (index s) "home" "https://ex.com/#top" = Some [0; 1]
  ∧ posting (index s) "home" "https://ex.com/" = Some [0; 1].
Proof. vm_compute. by split_and!. Qed.

(** C3 fails as stated: a page that links twice to [/x] puts
    [https://ex.com/x] twice into the queue. *)
Lemma same_link_is_queued_twice : ¬ queue_holds_a_url_once.
Proof.
  intros H.
  specialize (H PyLib.urlparse PyLib.urljoin "ex.com" "https://ex.com/" ∅
                ["/x"; "/x#top"]).
  assert ((Indexer.enqueue_links PyLib.urlparse PyLib.urljoin "ex.com"
             "https://ex.com/" ∅ ["/x"; "/x#top"] []).1
          = ["https://ex.com/x"; "https://ex.com/x"]) as Hq
    by (vm_compute; reflexivity).
  rewrite Hq in H. apply NoDup_cons in H as [Hnot _].
  apply Hnot. left.
Qed.

Lemma dedup_at_dequeue_example :
  Indexer.iteration PyLib.urlparse PyLib.urljoin HtmlModel.feed
    answer_404 written
    "ex.com"
    (mkState ["https://ex.com/x"; "https://ex.com/y"] {["https://ex.com/x"]}
       ∅ 1 ["https://ex.com/x"] [] [] false)
  = set_to_crawl ["https://ex.com/y"]
      (mkState ["https://ex.com/x"; "https://ex.com/y"] {["https://ex.com/x"]}
         ∅ 1 ["https://ex.com/x"] [] [] false).
Proof.
  pose proof (dedup_at_dequeue PyLib.urlparse PyLib.urljoin HtmlModel.feed
                answer_404 written "ex.com") as (_ & _ & Hdrop & _).
  apply (Hdrop _ "https://ex.com/x" ["https://ex.com/y"]).
  - reflexivity.
  - reflexivity.
  - simpl. apply elem_of_singleton. reflexivity.
Defined.

(** C10 fails as stated: a page answered with status 300 and content type
    [text/html] is indexed, and the page counter goes up. *)
Lemma status_300_page_is_indexed : ¬ non_2xx_skip_is_atomic.
Proof.
  intros H.
  specialize (H PyLib.urlparse PyLib.urljoin HtmlModel.feed answer_300 written
                "ex.com" (initial "https://ex.com/") "https://ex.com/" []
                (mkResponse 300 (Some "text/html") "<body>hello</body>")).
  destruct H as (_ & Hcount & _).
  - reflexivity.
  - reflexivity.
  - apply not_elem_of_empty.
  - vm_compute. reflexivity.
  - reflexivity.
  - simpl. lia.
  - vm_compute in Hcount. discriminate.
Qed.

Lemma skipped_fetch_is_atomic_example :
  let s := initial "https://ex.com/" in
  let s' :=
    Indexer.iteration PyLib.urlparse PyLib.urljoin HtmlModel.feed
      answer_404 written
      "ex.com" s in
  index s' = index s
  ∧ page_count s' = page_count s
  ∧ to_crawl s' = []
  ∧ flushed s' = flushed s
  ∧ seen s' = {["https://ex.com/"]} ∪ seen s
  ∧ crashed s' = false.
Proof.
  apply (skipped_fetch_is_atomic PyLib.urlparse PyLib.urljoin HtmlModel.feed
           answer_404 written "ex.com" (initial "https://ex.com/")
           "https://ex.com/" []).
  - reflexivity.
  - reflexivity.
  - apply not_elem_of_empty.
  - vm_compute. reflexivity.
  - simpl. left. lia.
Defined.

(** C2 fails as stated: on a page with text, a good link and a link that
    [urljoin] rejects, the [try] block raises after the text was indexed and
    the good link appended. *)
Lemma failed_document_is_indexed : ¬ failed_document_leaves_no_trace.
Proof.
  intros H.
  specialize (H PyLib.urlparse PyLib.urljoin HtmlModel.feed written "ex.com"
                "https://ex.com/" page_with_bad_link
                (set_to_crawl [] (initial "https://ex.com/"))
                (Indexer.try_index PyLib.urlparse PyLib.urljoin
                   HtmlModel.feed written
                   "ex.com" "https://ex.com/" page_with_bad_link
                   (set_to_crawl [] (initial "https://ex.com/"))).1).
  destruct H as [_ Hq].
  - vm_compute. reflexivity.
  - vm_compute in Hq. discriminate.
Qed.

Lemma parse_error_is_contained_example :
  let s := set_to_crawl [] (initial "https://ex.com/") in
  let s' :=
    (Indexer.try_index PyLib.urlparse PyLib.urljoin HtmlModel.feed written
       "ex.com" "https://ex.com/" page_with_bad_link s).1 in
  seen s' = seen s ∧ fetched s' = fetched s ∧ crashed s' = crashed s.
Proof.
  intros s s'.
  pose proof (parse_error_is_contained PyLib.urlparse PyLib.urljoin
                HtmlModel.feed answer_404 written "ex.com" "https://ex.com/"
                page_with_bad_link s s') as H.
  cbv zeta in H.
  destruct H as (Hseen & Hfetched & Hcrashed & _).
  - vm_compute. reflexivity.
  - split_and!; [exact Hseen | exact Hfetched | exact Hcrashed].
Defined.

(** The three places of C2 at work.  On [page_with_bad_link] the second
    link raises: the page is indexed and [/y] is queued, the page is not
    counted.  On a fiftieth page whose write fails, the page is indexed
    and counted. *)
Lemma try_block_raises_example :
  let s := set_to_crawl [] (initial "https://ex.com/") in
  let block := Indexer.try_index PyLib.urlparse PyLib.urljoin HtmlModel.feed in
  (let '(s', raised) :=
     block written "ex.com" "https://ex.com/" page_with_bad_link s in
   raised = true
   ∧ posting (index s') "hello" "https://ex.com/" = Some [0]
   ∧ to_crawl s' = ["https://ex.com/y"]
   ∧ page_count s' = 0 ∧ flushed s' = [])
  ∧ (let '(s', raised) :=
       block disk_full "ex.com" "https://ex.com/" "<body>hello</body>"
         (set_page_count 49 s) in
     raised = true
     ∧ posting (index s') "hello" "https://ex.com/" = Some [0]
     ∧ page_count s' = 50 ∧ flushed s' = [index s']).
Proof. vm_compute. by split_and!. Qed.

(** ** The prefixed script *)

Lemma prefixed_link_wanted (urlparse : string → option PyLib.ParseResult)
    (DOMAIN PREFIX_DIR : string) (seen : gset string) (link : string) :
  Prefixed.link_wanted urlparse DOMAIN PREFIX_DIR seen link = Some true →
  ∃ pl, urlparse link = Some pl
        ∧ startswith (PyLib.path pl) PREFIX_DIR = true.
Proof.
  unfold Prefixed.link_wanted. intros Hw.
  destruct (urlparse link) as [pl|] eqn:Hparse; [|done].
  exists pl. split; [done|]. simpl in Hw.
  destruct (startswith (PyLib.path pl) PREFIX_DIR); [done|].
  rewrite andb_false_r in Hw. done.
Qed.

(** C9. The prefix of a seed path [a/b] whose last segment [b] is not empty
    is [a/]; the seed [https://ex.com/html/sp/sp50.html] gives [/html/sp/].
    The link loop of the prefixed script appends only links whose path
    starts with the prefix: of [/html/other/x.html] and [/html/sp/x.html]
    only the second enters the queue. *)
Theorem prefix_scope :
  (∀ a b, contains "/" b = false → b ≠ "" →
          Prefixed.prefix_dir (a +:+ "/" +:+ b) = a +:+ "/")
  ∧ Prefixed.config_of PyLib.urlparse "https://ex.com/html/sp/sp50.html"
    = Some ("ex.com", "/html/sp/")
  ∧ (∀ urlparse urljoin DOMAIN PREFIX_DIR url seen hrefs queue,
       ∃ new,
         (Prefixed.enqueue_links urlparse urljoin DOMAIN PREFIX_DIR url seen
            hrefs queue).1 = queue ++ new
         ∧ ∀ link, link ∈ new →
             ∃ pl, urlparse link = Some pl
                   ∧ startswith (PyLib.path pl) PREFIX_DIR = true)
  ∧ Prefixed.enqueue_links PyLib.urlparse PyLib.urljoin "ex.com" "/html/sp/"
      "https://ex.com/html/sp/sp50.html" ∅
      ["/html/other/x.html"; "/html/sp/x.html"] []
    = (["https://ex.com/html/sp/x.html"], false).
Proof.
  split_and!.
  - apply prefix_dir_of_file.
  - vm_compute. reflexivity.
  - intros urlparse urljoin DOMAIN PREFIX_DIR url seen hrefs queue.
    destruct (enqueue_links_appends urljoin
                (Prefixed.link_wanted urlparse DOMAIN PREFIX_DIR) url seen
                hrefs queue) as (new & Hq & Hnew).
    exists new. split; [exact Hq|].
    intros link Hin. rewrite Forall_forall in Hnew.
    apply (prefixed_link_wanted urlparse DOMAIN PREFIX_DIR seen), Hnew, Hin.
  - vm_compute. reflexivity.
Qed.

Lemma prefix_scope_example :
  Prefixed.prefix_dir "/html/sp/sp50.html" = "/html/sp/".
Proof.
  apply (proj1 prefix_scope "/html/sp" "sp50.html").
  - reflexivity.
  - discriminate.
Defined.

(** * Further properties *)

(** ** The tokenizer *)

Lemma string_app_nil_l (b : string) : "" +:+ b = b.
Proof. reflexivity. Qed.

Lemma string_app_cons (x : ascii) (a b : string) :
  String x a +:+ b = String x (a +:+ b).
Proof. reflexivity. Qed.

Lemma string_app_nil_r (a : string) : a +:+ "" = a.
Proof.
  induction a as [|x a IH]; [done|]. by rewrite string_app_cons, IH.
Qed.

Lemma string_app_assoc (a b c : string) : (a +:+ b) +:+ c = a +:+ (b +:+ c).
Proof.
  induction a as [|x a IH]; [done|]. by rewrite !string_app_cons, IH.
Qed.

Lemma string_app_chr_not_empty (a : string) (c : ascii) :
  a +:+ chr_of c ≠ "".
Proof. destruct a; [done|]. by rewrite string_app_cons. Qed.

Lemma all_chars_app (f : ascii → bool) (a b : string) :
  PyLib.all_chars f (a +:+ b) = PyLib.all_chars f a && PyLib.all_chars f b.
Proof.
  induction a as [|x a IH]; [done|].
  rewrite string_app_cons. simpl. rewrite IH. by rewrite andb_assoc.
Qed.

Lemma lower_app (a b : string) : lower (a +:+ b) = lower a +:+ lower b.
Proof.
  induction a as [|x a IH]; [done|].
  rewrite string_app_cons. simpl. by rewrite IH.
Qed.

Lemma truthy_lower (s : string) : truthy (lower s) = truthy s.
Proof. by destruct s. Qed.

Lemma is_word_lower_char (c : ascii) : is_word (lower_char c) = is_word c.
Proof. destruct c as [[] [] [] [] [] [] [] []]; reflexivity. Qed.

Lemma is_upper_lower_char (c : ascii) : is_upper (lower_char c) = false.
Proof. destruct c as [[] [] [] [] [] [] [] []]; reflexivity. Qed.

Lemma lower_char_not_upper (c : ascii) :
  is_upper c = false → lower_char c = c.
Proof. unfold lower_char. by intros ->. Qed.

Lemma lower_lower (s : string) : lower (lower s) = lower s.
Proof.
  induction s as [|c s IH]; [done|]. simpl.
  by rewrite IH, (lower_char_not_upper _ (is_upper_lower_char c)).
Qed.

Lemma lower_token_chars (t : string) :
  PyLib.all_chars is_word t = true →
  PyLib.all_chars token_char (lower t) = true.
Proof.
  induction t as [|c t IH]; [done|]. simpl.
  intros [Hc Ht]%andb_true_iff. unfold token_char at 1.
  by rewrite is_word_lower_char, Hc, is_upper_lower_char, IH.
Qed.

Lemma lower_token_like (t : string) : token_like t = true → lower t = t.
Proof.
  unfold token_like. intros [_ Ht]%andb_true_iff.
  induction t as [|c t IH]; [done|]. simpl in *.
  apply andb_true_iff in Ht as [Hc Ht].
  unfold token_char in Hc. apply andb_true_iff in Hc as [_ Hc].
  apply negb_true_iff in Hc.
  by rewrite IH, lower_char_not_upper.
Qed.

(** The pieces [re.split] returns are made of word characters. *)
Lemma re_split_W_word (text : string) : ∀ cur in_sep,
  PyLib.all_chars is_word cur = true →
  Forall (λ t, PyLib.all_chars is_word t = true) (re_split_W text cur in_sep).
Proof.
  induction text as [|c text IH]; intros cur in_sep Hcur; simpl.
  - by constructor.
  - destruct (is_word c) eqn:Hc.
    + apply IH. rewrite all_chars_app, Hcur. simpl. by rewrite Hc.
    + destruct in_sep; [by apply IH|]. constructor; [done|]. by apply IH.
Qed.

(** X1. Every token is not empty and made of word characters, none of them
    an upper-case letter. *)
Theorem tokens_are_lowercase_words (text : string) :
  Forall (λ t, token_like t = true) (tokenize text).
Proof.
  unfold tokenize. apply Forall_forall. intros t Ht.
  apply list_elem_of_In, in_map_iff in Ht as (piece & <- & Hpiece).
  apply filter_In in Hpiece as [Hin Hne].
  pose proof (re_split_W_word text "" false eq_refl) as Hword.
  rewrite Forall_forall in Hword.
  apply list_elem_of_In, Hword in Hin.
  unfold token_like. by rewrite truthy_lower, Hne, lower_token_chars.
Qed.

(** After a separator the flag does not matter once the empty pieces are
    dropped. *)
Lemma re_split_W_flag (text : string) :
  List.filter truthy (re_split_W text "" true)
  = List.filter truthy (re_split_W text "" false).
Proof. destruct text as [|c text]; [done|]. simpl. by destruct (is_word c). Qed.

Lemma re_split_W_sep (a : string) (c : ascii) (b : string) : ∀ cur in_sep,
  is_word c = false → (in_sep = true → cur = "") →
  List.filter truthy (re_split_W (a +:+ String c b) cur in_sep)
  = List.filter truthy (re_split_W a cur in_sep)
    ++ List.filter truthy (re_split_W b "" false).
Proof.
  induction a as [|x a IH]; intros cur in_sep Hc Hcur.
  - rewrite string_app_nil_l. simpl. rewrite Hc.
    destruct in_sep.
    + rewrite (Hcur eq_refl). simpl. apply re_split_W_flag.
    + simpl. rewrite re_split_W_flag. by destruct (truthy cur).
  - rewrite string_app_cons. simpl. destruct (is_word x).
    + by apply IH.
    + destruct in_sep; [by apply IH|].
      simpl. rewrite IH by done. by destruct (truthy cur).
Qed.

(** A non-word character between two texts separates their tokens. *)
Lemma tokenize_sep (a : string) (c : ascii) (b : string) :
  is_word c = false →
  tokenize (a +:+ String c b) = tokenize a ++ tokenize b.
Proof.
  intros Hc. unfold tokenize.
  rewrite re_split_W_sep by done. apply map_app.
Qed.

(** X2. The tokens of the extracted text are the tokens of its chunks, one
    chunk after the other: no token spans two text nodes. *)
Theorem tokens_of_text_by_chunk (self : TextExtractor.t) :
  tokenize (TextExtractor.text self)
  = concat (map tokenize (TextExtractor.chunks self)).
Proof.
  unfold TextExtractor.text.
  induction (TextExtractor.chunks self) as [|x [|y l] IH].
  - reflexivity.
  - simpl. by rewrite app_nil_r.
  - change (join " " (x :: y :: l)) with (x +:+ String " " (join " " (y :: l))).
    rewrite tokenize_sep by reflexivity. by rewrite IH.
Qed.

Lemma re_split_W_words (t : string) : ∀ cur in_sep,
  PyLib.all_chars is_word t = true → truthy t = true →
  re_split_W t cur in_sep = [cur +:+ t].
Proof.
  induction t as [|c t IH]; intros cur in_sep Hw Hne; [done|].
  simpl in *. apply andb_true_iff in Hw as [Hc Hw]. rewrite Hc.
  destruct t as [|d t].
  - simpl. reflexivity.
  - rewrite IH by done. by rewrite string_app_assoc.
Qed.

Lemma tokenize_token (t : string) : token_like t = true → tokenize t = [t].
Proof.
  intros Ht. pose proof (lower_token_like t Ht) as Hlow.
  unfold token_like in Ht. apply andb_true_iff in Ht as [Hne Hchars].
  assert (PyLib.all_chars is_word t = true) as Hw.
  { clear -Hchars. induction t as [|c t IH]; [done|]. simpl in *.
    apply andb_true_iff in Hchars as [Hc Ht]. rewrite IH by done.
    unfold token_char in Hc. apply andb_true_iff in Hc as [-> _]. done. }
  unfold tokenize. rewrite re_split_W_words by done.
  rewrite string_app_nil_l. simpl. rewrite Hne. simpl. by rewrite Hlow.
Qed.

(** X3. Tokens joined with spaces tokenize back to themselves. *)
Theorem tokenize_join_tokens (tokens : list string) :
  Forall (λ t, token_like t = true) tokens →
  tokenize (join " " tokens) = tokens.
Proof.
  induction tokens as [|x [|y l] IH]; intros Hall.
  - reflexivity.
  - apply tokenize_token. by inversion Hall.
  - change (join " " (x :: y :: l)) with (x +:+ String " " (join " " (y :: l))).
    rewrite tokenize_sep by reflexivity.
    inversion Hall as [|? ? Hx Hrest]; subst.
    by rewrite tokenize_token, IH.
Qed.

Lemma tokenize_join_tokens_example :
  tokenize (join " " ["hello"; "world_1"; "42"]) = ["hello"; "world_1"; "42"].
Proof.
  apply tokenize_join_tokens.
  repeat constructor.
Defined.

Lemma re_split_W_lower (text : string) : ∀ cur in_sep,
  re_split_W (lower text) (lower cur) in_sep
  = map lower (re_split_W text cur in_sep).
Proof.
  induction text as [|c text IH]; intros cur in_sep; [done|].
  simpl. rewrite is_word_lower_char. destruct (is_word c).
  - rewrite <- IH. by rewrite lower_app.
  - destruct in_sep; [apply IH|]. simpl. f_equal. apply (IH "").
Qed.

Lemma filter_truthy_lower (l : list string) :
  List.filter truthy (map lower l) = map lower (List.filter truthy l).
Proof.
  induction l as [|x l IH]; [done|]. simpl.
  rewrite truthy_lower. destruct (truthy x); simpl; by rewrite IH.
Qed.

(** X4. Tokenizing does not depend on the case of the text. *)
Theorem tokenize_ignores_case (text : string) :
  tokenize (lower text) = tokenize text.
Proof.
  unfold tokenize.
  change (re_split_W (lower text) "" false)
    with (re_split_W (lower text) (lower "") false).
  rewrite re_split_W_lower.
  rewrite filter_truthy_lower, map_map. apply map_ext.
  intros t. apply lower_lower.
Qed.

Lemma re_split_W_no_token (text : string) : ∀ cur in_sep,
  List.filter truthy (re_split_W text cur in_sep) = [] →
  cur = "" ∧ PyLib.all_chars (λ c, negb (is_word c)) text = true.
Proof.
  induction text as [|c text IH]; intros cur in_sep Hnil; simpl in *.
  - by destruct cur.
  - destruct (is_word c).
    + apply IH in Hnil as [Hcur _]. by apply string_app_chr_not_empty in Hcur.
    + destruct in_sep; [by apply IH in Hnil|]. simpl in Hnil.
      destruct cur; [|done]. apply IH in Hnil as [_ Htext]. done.
Qed.

Lemma re_split_W_no_word (text : string) : ∀ in_sep,
  PyLib.all_chars (λ c, negb (is_word c)) text = true →
  List.filter truthy (re_split_W text "" in_sep) = [].
Proof.
  induction text as [|c text IH]; intros in_sep Hno; [done|].
  simpl in *. apply andb_true_iff in Hno as [Hc Hno].
  apply negb_true_iff in Hc. rewrite Hc.
  destruct in_sep; simpl; by apply IH.
Qed.

(** X5. A text yields no token exactly when it has no word character; in
    particular the empty text yields none. *)
Theorem no_token_iff_no_word_char (text : string) :
  tokenize text = []
  ↔ PyLib.all_chars (λ c, negb (is_word c)) text = true.
Proof.
  unfold tokenize. split.
  - intros Hnil. apply map_eq_nil in Hnil.
    by apply re_split_W_no_token in Hnil as [_ ?].
  - intros Hno. by rewrite re_split_W_no_word.
Qed.

(** ** The extractors, on whole documents *)

(** Outside [body] nothing is kept, and nothing but a start tag [body] gets
    the extractor inside. *)
Lemma text_extractor_outside_body (events : list Event) : ∀ self,
  TextExtractor.in_body self = false → has_body_start events = false →
  TextExtractor.chunks (TextExtractor.feed self events)
  = TextExtractor.chunks self
  ∧ TextExtractor.in_body (TextExtractor.feed self events) = false.
Proof.
  induction events as [|e events IH]; intros self Hout Hno; [done|].
  simpl in Hno. apply orb_false_iff in Hno as [He Hno].
  assert (TextExtractor.chunks (TextExtractor.handle self e)
          = TextExtractor.chunks self
          ∧ TextExtractor.in_body (TextExtractor.handle self e) = false)
    as [Hchunks Hin].
  { destruct e as [tag attrs|tag|data]; simpl.
    - unfold TextExtractor.handle_starttag. unfold is_body_tag in He.
      rewrite He, Hout. done.
    - unfold TextExtractor.handle_endtag.
      destruct (String.eqb (lower tag) "body"); [done|].
      by destruct (PyLib.str_in _ _).
    - unfold TextExtractor.handle_data. by rewrite Hout. }
  change (TextExtractor.feed self (e :: events))
    with (TextExtractor.feed (TextExtractor.handle self e) events).
  destruct (IH (TextExtractor.handle self e) Hin Hno) as [-> ->].
  done.
Qed.

(** X6. A document without a start tag [body] yields no text, hence no
    token: the parser does not supply the tag when the page leaves it
    out. *)
Theorem no_body_tag_no_text (events : list Event) :
  has_body_start events = false →
  TextExtractor.chunks (TextExtractor.feed TextExtractor.init events) = []
  ∧ tokenize
      (TextExtractor.text (TextExtractor.feed TextExtractor.init events))
    = [].
Proof.
  intros Hno.
  destruct (text_extractor_outside_body events TextExtractor.init eq_refl Hno)
    as [Hchunks _].
  simpl in Hchunks. split; [exact Hchunks|].
  unfold TextExtractor.text. by rewrite Hchunks.
Qed.

Lemma no_body_tag_no_text_example :
  TextExtractor.chunks
    (TextExtractor.feed TextExtractor.init
       [StartTag "html" []; StartTag "p" []; Data "Hello"; EndTag "p";
        EndTag "html"]) = []
  ∧ tokenize
      (TextExtractor.text
         (TextExtractor.feed TextExtractor.init
            [StartTag "html" []; StartTag "p" []; Data "Hello"; EndTag "p";
             EndTag "html"])) = [].
Proof.
  apply no_body_tag_no_text. reflexivity.
Defined.

(** X7. The Text Extractor only adds to its chunks, and what it adds is a
    selection of the text nodes of the document, in document order. *)
Theorem text_is_selected_data (events : list Event) (self : TextExtractor.t) :
  ∃ kept,
    TextExtractor.chunks (TextExtractor.feed self events)
    = TextExtractor.chunks self ++ kept
    ∧ kept `sublist_of` data_of events.
Proof.
  revert self. induction events as [|e events IH]; intros self.
  - exists []. simpl. by rewrite app_nil_r.
  - change (TextExtractor.feed self (e :: events))
      with (TextExtractor.feed (TextExtractor.handle self e) events).
    destruct (IH (TextExtractor.handle self e)) as (kept & -> & Hsub).
    destruct e as [tag attrs|tag|data]; simpl.
    + exists kept. split; [|done].
      unfold TextExtractor.handle_starttag. by repeat case_match.
    + exists kept. split; [|done].
      unfold TextExtractor.handle_endtag. by repeat case_match.
    + unfold TextExtractor.handle_data.
      destruct (TextExtractor.in_body self && negb (TextExtractor.skip self)).
      * exists (data :: kept). simpl. rewrite <- app_assoc.
        split; [done | by constructor].
      * exists kept. split; [done | by constructor].
Qed.

Lemma text_extractor_plain (events : list Event) : ∀ self,
  TextExtractor.in_body self = true → TextExtractor.skip self = false →
  forallb plain_event events = true →
  TextExtractor.chunks (TextExtractor.feed self events)
  = TextExtractor.chunks self ++ data_of events.
Proof.
  induction events as [|e events IH]; intros self Hin Hskip Hplain.
  - simpl. by rewrite app_nil_r.
  - simpl in Hplain. apply andb_true_iff in Hplain as [He Hplain].
    change (TextExtractor.feed self (e :: events))
      with (TextExtractor.feed (TextExtractor.handle self e) events).
    destruct e as [tag attrs|tag|data]; simpl in *.
    + apply negb_true_iff, orb_false_iff in He as [Hb Hs].
      unfold is_body_tag, is_skip_tag in *.
      unfold TextExtractor.handle_starttag. rewrite Hb, Hs, andb_false_r.
      by apply IH.
    + apply negb_true_iff, orb_false_iff in He as [Hb Hs].
      unfold is_body_tag, is_skip_tag in *.
      unfold TextExtractor.handle_endtag. rewrite Hb, Hs.
      by apply IH.
    + unfold TextExtractor.handle_data. rewrite Hin, Hskip. simpl.
      rewrite IH by done. simpl. by rewrite <- app_assoc.
Qed.

(** X8. After a start tag [body], as long as no [body], [script], [style]
    or [head] tag comes, every text node is kept, in document order. *)
Theorem plain_body_text_is_kept (tag : string)
    (attrs : list (string * option string)) (events : list Event) :
  is_body_tag tag = true →
  forallb plain_event events = true →
  TextExtractor.chunks
    (TextExtractor.feed TextExtractor.init (StartTag tag attrs :: events))
  = data_of events.
Proof.
  intros Hbody Hplain.
  change (TextExtractor.feed TextExtractor.init (StartTag tag attrs :: events))
    with (TextExtractor.feed
            (TextExtractor.handle_starttag TextExtractor.init tag attrs)
            events).
  unfold TextExtractor.handle_starttag. unfold is_body_tag in Hbody.
  rewrite Hbody. by rewrite text_extractor_plain.
Qed.

Lemma plain_body_text_is_kept_example :
  TextExtractor.chunks
    (TextExtractor.feed TextExtractor.init
       [StartTag "BODY" []; Data "Hello "; StartTag "b" []; Data "World";
        EndTag "b"])
  = ["Hello "; "World"].
Proof.
  apply (plain_body_text_is_kept "BODY" []
           [Data "Hello "; StartTag "b" []; Data "World"; EndTag "b"]);
    reflexivity.
Defined.

Lemma href_values_not_empty (attrs : list (string * option string)) :
  Forall (λ v, v ≠ "") (href_values attrs).
Proof.
  apply Forall_forall. intros v Hv. unfold href_values in Hv.
  apply list_elem_of_omap in Hv as ([k [w|]] & _ & Hw); simpl in Hw; [|done].
  destruct (decide (lower k = "href" ∧ w ≠ "")) as [[_ Hne]|]; [|done].
  congruence.
Qed.

(** X9. The links of a document are the non-empty [href] values of its
    anchor start tags, tag after tag in document order; an empty string is
    never among them. *)
Theorem links_of_document (events : list Event) (self : LinkExtractor.t) :
  LinkExtractor.links (LinkExtractor.feed self events)
  = LinkExtractor.links self ++ concat (map event_hrefs events)
  ∧ Forall (λ v, v ≠ "") (concat (map event_hrefs events)).
Proof.
  split.
  - revert self. induction events as [|e events IH]; intros self.
    + simpl. by rewrite app_nil_r.
    + change (LinkExtractor.feed self (e :: events))
        with (LinkExtractor.feed (LinkExtractor.handle self e) events).
      rewrite IH. simpl. rewrite app_assoc. f_equal.
      destruct e as [tag attrs|tag|data]; simpl; try by rewrite app_nil_r.
      unfold LinkExtractor.handle_starttag.
      destruct (String.eqb_spec (lower tag) "a") as [Ht|Ht].
      * rewrite decide_True by done. simpl. apply append_hrefs_values.
      * rewrite decide_False by done. by rewrite app_nil_r.
  - induction events as [|e events IH]; simpl; [constructor|].
    apply Forall_app. split; [|exact IH].
    destruct e as [tag attrs|tag|data]; simpl; try constructor.
    destruct (decide (lower tag = "a")); [|constructor].
    apply href_values_not_empty.
Qed.

(** ** The index, pass by pass *)

(** X10. Indexing a document at a URL leaves the postings of every other
    URL as they were. *)
Theorem other_urls_keep_their_postings (index : Index) (U U' : string)
    (T : list string) (t : string) :
  U' ≠ U →
  posting (index_tokens index U T) t U' = posting index t U'.
Proof. intros Hne. by apply posting_index_from_other. Qed.

Lemma other_urls_keep_their_postings_example :
  posting
    (index_tokens (index_tokens ∅ "https://ex.com/a" ["x"; "y"])
       "https://ex.com/b" ["y"; "x"]) "x" "https://ex.com/a"
  = posting (index_tokens ∅ "https://ex.com/a" ["x"; "y"]) "x"
      "https://ex.com/a".
Proof.
  apply other_urls_keep_their_postings. discriminate.
Defined.

Lemma dom_index_from (tokens : list string) : ∀ pos url (index : Index),
  dom (index_from pos tokens url index) = dom index ∪ list_to_set tokens.
Proof.
  induction tokens as [|x tokens IH]; intros pos url index; simpl.
  - by rewrite union_empty_r_L.
  - rewrite IH. unfold add_occurrence. rewrite dom_insert_L.
    rewrite (union_comm_L {[x]} (dom index)). by rewrite <- union_assoc_L.
Qed.

(** X11. After a pass the terms of the index are those it had and those of
    the document: a term is in the index exactly when it occurred in an
    indexed document. *)
Theorem terms_after_pass (index : Index) (U : string) (T : list string) :
  dom (index_tokens index U T) = dom index ∪ list_to_set T.
Proof. apply dom_index_from. Qed.

(** ** The crawl loop, turn by turn *)

Lemma div_flush_every_succ (n : nat) :
  (n + 1) / FLUSH_EVERY
  = n / FLUSH_EVERY + (if Nat.eqb ((n + 1) mod FLUSH_EVERY) 0 then 1 else 0).
Proof.
  unfold FLUSH_EVERY.
  pose proof (Nat.div_mod_eq n 50) as H1.
  pose proof (Nat.div_mod_eq (n + 1) 50) as H2.
  pose proof (Nat.mod_upper_bound n 50) as H3.
  pose proof (Nat.mod_upper_bound (n + 1) 50) as H4.
  destruct (Nat.eqb_spec ((n + 1) mod 50) 0); lia.
Qed.

Section crawl_turns.
Variable urljoin : string → string → option string.
Variable html_feed : string → option (list Event).
Variable requests_get : nat → string → option Response.
Variable dump : nat → Index → bool.
Variable in_scope : string → option bool.
Variable is_html : string → option bool.
Variable link_wanted : gset string → string → option bool.

Local Abbreviation links_loop := (enqueue_links urljoin link_wanted).
Local Abbreviation try_block := (try_index urljoin html_feed dump link_wanted).
Local Abbreviation turn :=
  (iteration urljoin html_feed requests_get dump in_scope is_html link_wanted).
Local Abbreviation turns :=
  (run urljoin html_feed requests_get dump in_scope is_html link_wanted).

(** All that the [try] block does to the data. *)
Lemma try_index_data url html s :
  let '(s', raised) := try_block url html s in
  seen s' = seen s ∧ fetched s' = fetched s ∧ crashed s' = crashed s
  ∧ (∃ new, to_crawl s' = to_crawl s ++ new
            ∧ Forall (λ link, link_wanted (seen s) link = Some true) new)
  ∧ (∃ tokens, index s' = index_tokens (index s) url tokens)
  ∧ ((page_count s' = page_count s ∧ flushed s' = flushed s)
     ∨ (page_count s' = page_count s + 1
        ∧ flushed s'
          = if Nat.eqb ((page_count s + 1) mod FLUSH_EVERY) 0
            then flushed s ++ [index s'] else flushed s)).
Proof.
  unfold try_index.
  destruct (html_feed html) as [events|] eqn:Hfeed.
  - simpl.
    destruct (enqueue_links_appends urljoin link_wanted url (seen s)
                (LinkExtractor.links
                   (LinkExtractor.feed LinkExtractor.init events))
                (to_crawl s)) as (new & Hq & Hnew).
    destruct (links_loop url (seen s) _ (to_crawl s))
      as [queue raised] eqn:Hloop.
    simpl in Hq. subst queue.
    destruct raised; simpl.
    + split_and!; eauto.
    + destruct (Nat.eqb _ 0) eqn:Hmod; simpl.
      * unfold flush_index. destruct (dump _ _); simpl; split_and!; eauto.
      * split_and!; eauto.
  - split_and!; eauto.
    + exists []. by rewrite app_nil_r.
    + by exists [].
Qed.

(** The shapes a turn of the loop can take. *)
Lemma iteration_cases s :
  ((crashed s = true ∨ to_crawl s = []) ∧ turn s = s)
  ∨ ∃ url rest,
      crashed s = false ∧ to_crawl s = url :: rest
      ∧ ((url ∈ seen s ∧ turn s = set_to_crawl rest s)
         ∨ ((url ∉ seen s)
            ∧ (in_scope url ≠ Some true ∨ is_html url ≠ Some true)
            ∧ to_crawl (turn s) = rest ∧ seen (turn s) = {[url]} ∪ seen s
            ∧ index (turn s) = index s ∧ page_count (turn s) = page_count s
            ∧ fetched (turn s) = fetched s ∧ flushed (turn s) = flushed s
            ∧ (crashed (turn s) = false
               ∨ in_scope url = None ∨ is_html url = None))
         ∨ ((url ∉ seen s)
            ∧ in_scope url = Some true ∧ is_html url = Some true
            ∧ crashed (turn s) = false
            ∧ (same_data (turn s)
                 (request url
                    (set_seen ({[url]} ∪ seen s) (set_to_crawl rest s)))
               ∨ ∃ r s' raised,
                   requests_get (length (fetched s)) url = Some r
                   ∧ try_block url (text r)
                       (request url
                          (set_seen ({[url]} ∪ seen s) (set_to_crawl rest s)))
                     = (s', raised)
                   ∧ same_data (turn s) s'))).
Proof.
  destruct (crashed s) eqn:Hc.
  { left. split; [by left|]. unfold iteration. by rewrite Hc. }
  destruct (to_crawl s) as [|url rest] eqn:Hq.
  { left. split; [by right|]. unfold iteration. by rewrite Hc, Hq. }
  right. exists url, rest. split_and!; [done..|].
  destruct (decide (url ∈ seen s)) as [Hin|Hin].
  { left. split; [done|]. unfold iteration. rewrite Hc, Hq. simpl.
    by rewrite decide_True. }
  right.
  destruct (in_scope url) as [[]|] eqn:Hscope;
    [destruct (is_html url) as [[]|] eqn:Hhtml|..].
  - right. split_and!; [done..| |].
    + by apply (iteration_fetch_continues _ _ _ _ _ _ _ s url rest).
    + rewrite (iteration_fetch _ _ _ _ _ _ _ s url rest) by done. simpl.
      destruct (requests_get _ url) as [r|]; [|by left].
      destruct (raise_for_status r); [by left|].
      destruct (negb _); [by left|].
      pose proof (try_index_data url (text r)
                    (request url
                       (set_seen ({[url]} ∪ seen s) (set_to_crawl rest s))))
        as Hdata.
      destruct (try_block url (text r) _) as [s' raised] eqn:Htry.
      right. exists r, s', raised. split_and!; [done..|].
      by destruct raised.
  - left. unfold iteration. rewrite Hc, Hq. simpl.
    rewrite decide_False by done. rewrite Hscope, Hhtml.
    split_and!; auto; done.
  - left. unfold iteration. rewrite Hc, Hq. simpl.
    rewrite decide_False by done. rewrite Hscope, Hhtml.
    split_and!; auto; done.
  - left. unfold iteration. rewrite Hc, Hq. simpl.
    rewrite decide_False by done. rewrite Hscope.
    split_and!; auto; done.
  - left. unfold iteration. rewrite Hc, Hq. simpl.
    rewrite decide_False by done. rewrite Hscope.
    split_and!; auto; done.
Qed.

Lemma run_invariant (P : State → Prop) :
  (∀ s, P s → P (turn s)) → ∀ n s, P s → P (turns n s).
Proof.
  intros Hstep n. induction n as [|n IH]; intros s Hs; simpl; [done|].
  by apply IH, Hstep.
Qed.
End crawl_turns.

(** ** The crawl loop, over a run *)

Lemma posting_empty (t u : string) : posting ∅ t u = None.
Proof. unfold posting. by rewrite lookup_empty. Qed.

Lemma positions_from_present (pos : nat) (term : string)
    (tokens : list string) :
  term ∈ tokens → positions_from pos term tokens ≠ [].
Proof.
  revert pos. induction tokens as [|x tokens IH]; intros pos Hin.
  - by apply elem_of_nil in Hin.
  - simpl. destruct (decide (x = term)); [done|].
    apply elem_of_cons in Hin as [?|Hin]; [congruence|]. by apply IH.
Qed.

Section crawl_runs.
Variable urljoin : string → string → option string.
Variable html_feed : string → option (list Event).
Variable requests_get : nat → string → option Response.
Variable dump : nat → Index → bool.
Variable in_scope : string → option bool.
Variable is_html : string → option bool.
Variable link_wanted : gset string → string → option bool.

Local Abbreviation try_block := (try_index urljoin html_feed dump link_wanted).
Local Abbreviation turn :=
  (iteration urljoin html_feed requests_get dump in_scope is_html link_wanted).
Local Abbreviation turns :=
  (run urljoin html_feed requests_get dump in_scope is_html link_wanted).
Local Abbreviation cases :=
  (iteration_cases urljoin html_feed requests_get dump in_scope is_html
     link_wanted).
Local Abbreviation try_data := (try_index_data urljoin html_feed dump link_wanted).

(** The count of the calls of [flush_index] follows the page counter. *)
Lemma run_flush_count (START_URL : string) (n : nat) :
  length (flushed (turns n (initial START_URL)))
  = page_count (turns n (initial START_URL)) / FLUSH_EVERY
  ∧ (page_count (turns n (initial START_URL))
     ≤ length (fetched (turns n (initial START_URL))))%nat.
Proof.
  apply (run_invariant urljoin html_feed requests_get dump in_scope is_html
           link_wanted
           (λ s, length (flushed s) = page_count s / FLUSH_EVERY
                 ∧ (page_count s ≤ length (fetched s))%nat));
    [|split; [reflexivity | simpl; lia]].
  intros s [Hfl Hpc].
  destruct (cases s) as [[_ ->]|(url & rest & Hc & Hq & Hcase)]; [done|].
  destruct Hcase as [[_ ->]|[(_ & _ & _ & _ & _ & -> & -> & -> & _)|Hfetch]];
    [done..|].
  destruct Hfetch as (_ & _ & _ & _ & [Hsame|(r & s' & raised & _ & Htry & Hsame)]).
  - destruct Hsame as (_ & _ & _ & -> & -> & -> & _). simpl.
    rewrite length_app. simpl. split; [done | lia].
  - destruct Hsame as (_ & _ & _ & -> & -> & -> & _).
    pose proof (try_data url (text r)
                  (request url
                     (set_seen ({[url]} ∪ seen s) (set_to_crawl rest s))))
      as Hdata.
    rewrite Htry in Hdata.
    set (s2 := request url _) in *.
    assert (page_count s2 = page_count s) as Hp2 by reflexivity.
    assert (flushed s2 = flushed s) as Hf2 by reflexivity.
    assert (length (fetched s2) = length (fetched s) + 1) as Hr2
      by (simpl; by rewrite length_app).
    clearbody s2.
    destruct Hdata as (_ & -> & _ & _ & _ & [[-> ->]|[-> ->]]);
      rewrite Hp2, Hf2, Hr2.
    + split; [done | lia].
    + rewrite div_flush_every_succ.
      destruct (Nat.eqb _ 0); rewrite ?length_app; cbn [length]; lia.
Qed.

(** X12. In a run of either script, [flush_index] has been called once
    for every 50 pages indexed, and no more pages are indexed than
    requests were sent. *)
Theorem flush_every_fifty_pages (START_URL : string) (n : nat) :
  length (flushed (turns n (initial START_URL)))
  = page_count (turns n (initial START_URL)) / FLUSH_EVERY
  ∧ (page_count (turns n (initial START_URL))
     ≤ length (fetched (turns n (initial START_URL))))%nat.
Proof.
  destruct (run_flush_count START_URL n) as [Hflushed Hpages].
  split; [exact Hflushed | exact Hpages].
Qed.

(** X13. When [main] returns, the queue is empty, the index written last is
    the final index, and the number of calls of [flush_index] is one more
    than the number of full batches of 50 pages. *)
Theorem main_writes_final_index (START_URL : string) (fuel : nat)
    (s : State) :
  main urljoin html_feed requests_get dump in_scope is_html link_wanted
    START_URL fuel = Some s →
  to_crawl s = []
  ∧ crashed s = false
  ∧ (∃ earlier, flushed s = earlier ++ [index s])
  ∧ length (flushed s) = page_count s / FLUSH_EVERY + 1.
Proof.
  unfold main. intros Hmain.
  destruct (run_flush_count START_URL fuel) as [Hfl _].
  destruct (to_crawl (turns fuel (initial START_URL))) eqn:Hq; [|done].
  destruct (crashed (turns fuel (initial START_URL))) eqn:Hc; [done|].
  unfold finish, flush_index in Hmain.
  destruct (dump _ _); [|done].
  injection Hmain as <-. unfold flush_call, print.
  cbn [to_crawl crashed flushed index page_count].
  split_and!; [done..| |].
  - by eexists.
  - rewrite length_app, Hfl. cbn [length]. lia.
Qed.

(** A turn never shortens a posting. *)
Lemma iteration_extends_postings s t u l :
  posting (index s) t u = Some l →
  ∃ more, posting (index (turn s)) t u = Some (l ++ more).
Proof.
  intros Hl.
  assert (∀ s0 : State, index s0 = index s →
            ∃ more, posting (index s0) t u = Some (l ++ more)) as Hsame.
  { intros s0 ->. exists []. by rewrite app_nil_r. }
  destruct (cases s) as [[_ ->]|(url & rest & Hc & Hq & Hcase)];
    [by apply Hsame|].
  destruct Hcase as [[_ ->]|[(_ & _ & _ & _ & Hi & _)|Hfetch]];
    [by apply Hsame..|].
  destruct Hfetch as (_ & _ & _ & _ & [Hsame'|(r & s' & raised & _ & Htry & Hsame')]).
  - destruct Hsame' as (_ & _ & Hi & _). by apply Hsame.
  - destruct Hsame' as (_ & _ & -> & _).
    pose proof (try_data url (text r)
                  (request url
                     (set_seen ({[url]} ∪ seen s) (set_to_crawl rest s))))
      as Hdata.
    rewrite Htry in Hdata.
    destruct Hdata as (_ & _ & _ & _ & (tokens & ->) & _). simpl.
    destruct (decide (u = url)) as [->|Hne].
    + unfold index_tokens. rewrite posting_index_from, Hl. simpl.
      destruct (decide (t ∈ tokens)); [by eexists|].
      exists []. by rewrite app_nil_r.
    + unfold index_tokens. rewrite posting_index_from_other by done.
      exists []. by rewrite app_nil_r.
Qed.

(** X14. The index only grows: a posting recorded at some moment of a run
    is, at any later moment, the beginning of the posting of the same term
    and URL. *)
Theorem index_is_append_only (n : nat) (s : State) (t u : string)
    (l : list nat) :
  posting (index s) t u = Some l →
  ∃ more, posting (index (turns n s)) t u = Some (l ++ more).
Proof.
  revert s l. induction n as [|n IH]; intros s l Hl; simpl.
  - exists []. by rewrite app_nil_r.
  - destruct (iteration_extends_postings s t u l Hl) as (m1 & H1).
    destruct (IH _ _ H1) as (m2 & H2).
    exists (m1 ++ m2). by rewrite app_assoc.
Qed.

(** X15. The frontier is a queue: a turn takes the URL at the head, leaves
    the others in their order, and appends at the end only links that pass
    the condition of the script. *)
Theorem frontier_is_fifo (s : State) (url : string) (rest : list string) :
  crashed s = false → to_crawl s = url :: rest →
  ∃ new, to_crawl (turn s) = rest ++ new
         ∧ Forall (λ link, link_wanted ({[url]} ∪ seen s) link = Some true)
             new.
Proof.
  intros Hc Hq.
  assert (∀ s0 : State, to_crawl s0 = rest →
            ∃ new, to_crawl s0 = rest ++ new
                   ∧ Forall (λ link,
                        link_wanted ({[url]} ∪ seen s) link = Some true) new)
    as Hnone.
  { intros s0 ->. exists []. by rewrite app_nil_r. }
  destruct (cases s) as [[[Hc'|Hq'] _]|(url' & rest' & _ & Hq' & Hcase)];
    [congruence..|].
  rewrite Hq in Hq'. injection Hq' as <- <-.
  destruct Hcase as [[_ ->]|[(_ & _ & Hrest & _)|Hfetch]];
    [by apply Hnone..|].
  destruct Hfetch as (_ & _ & _ & _ & [Hsame|(r & s' & raised & _ & Htry & Hsame)]).
  - destruct Hsame as (Hrest & _). by apply Hnone.
  - destruct Hsame as (-> & _).
    pose proof (try_data url (text r)
                  (request url
                     (set_seen ({[url]} ∪ seen s) (set_to_crawl rest s))))
      as Hdata.
    rewrite Htry in Hdata.
    destruct Hdata as (_ & _ & _ & (new & -> & Hnew) & _). by exists new.
Qed.
End crawl_runs.

Lemma main_writes_final_index_example :
  let s :=
    (finish written
       (Indexer.run PyLib.urlparse PyLib.urljoin HtmlModel.feed answer_200
          written "ex.com" 2 (initial "https://ex.com/"))).1 in
  to_crawl s = []
  ∧ crashed s = false
  ∧ (∃ earlier, flushed s = earlier ++ [index s])
  ∧ length (flushed s) = page_count s / FLUSH_EVERY + 1.
Proof.
  apply (main_writes_final_index PyLib.urljoin HtmlModel.feed answer_200
           written (λ _, Some true) (is_likely_html PyLib.urlparse)
           (Indexer.link_wanted PyLib.urlparse "ex.com") "https://ex.com/" 2).
  vm_compute. reflexivity.
Defined.

Lemma index_is_append_only_example :
  ∃ more,
    posting
      (index
         (Indexer.run PyLib.urlparse PyLib.urljoin HtmlModel.feed
           answer_200 written
            "ex.com" 1
            (Indexer.run PyLib.urlparse PyLib.urljoin HtmlModel.feed
               answer_200 written "ex.com" 1 (initial "https://ex.com/"))))
      "hello" "https://ex.com/"
    = Some ([0] ++ more).
Proof.
  apply (index_is_append_only PyLib.urljoin HtmlModel.feed answer_200 written
           (λ _, Some true) (is_likely_html PyLib.urlparse)
           (Indexer.link_wanted PyLib.urlparse "ex.com") 1).
  vm_compute. reflexivity.
Defined.

Lemma frontier_is_fifo_example :
  ∃ new,
    to_crawl
      (Indexer.iteration PyLib.urlparse PyLib.urljoin HtmlModel.feed
         answer_200 written "ex.com"
         (mkState ["https://ex.com/"; "https://ex.com/a"; "https://ex.com/b"]
            ∅ ∅ 0 [] [] [] false))
    = ["https://ex.com/a"; "https://ex.com/b"] ++ new
    ∧ Forall (λ link,
         Indexer.link_wanted PyLib.urlparse "ex.com"
           ({["https://ex.com/"]} ∪ ∅) link = Some true) new.
Proof.
  apply (frontier_is_fifo PyLib.urljoin HtmlModel.feed answer_200 written
           (λ _, Some true) (is_likely_html PyLib.urlparse)
           (Indexer.link_wanted PyLib.urlparse "ex.com")
           (mkState ["https://ex.com/"; "https://ex.com/a"; "https://ex.com/b"]
              ∅ ∅ 0 [] [] [] false)
           "https://ex.com/" ["https://ex.com/a"; "https://ex.com/b"]);
    reflexivity.
Defined.

Section crawl_origin.
Variable urljoin : string → string → option string.
Variable html_feed : string → option (list Event).
Variable requests_get : nat → string → option Response.
Variable dump : nat → Index → bool.
Variable in_scope : string → option bool.
Variable is_html : string → option bool.
Variable link_wanted : gset string → string → option bool.

Local Abbreviation turn :=
  (iteration urljoin html_feed requests_get dump in_scope is_html link_wanted).
Local Abbreviation turns :=
  (run urljoin html_feed requests_get dump in_scope is_html link_wanted).
Local Abbreviation cases :=
  (iteration_cases urljoin html_feed requests_get dump in_scope is_html
     link_wanted).
Local Abbreviation try_data := (try_index_data urljoin html_feed dump link_wanted).

(** X16. In a run of either script every posting of the index belongs to a
    URL that was requested, is not empty, and is strictly increasing. *)
Theorem postings_are_sorted_and_of_fetched_pages (START_URL : string)
    (n : nat) (t u : string) (l : list nat) :
  posting (index (turns n (initial START_URL))) t u = Some l →
  u ∈ fetched (turns n (initial START_URL))
  ∧ l ≠ [] ∧ StronglySorted lt l.
Proof.
  revert t u l.
  apply (run_invariant urljoin html_feed requests_get dump in_scope is_html
           link_wanted
           (λ s, (∀ v, v ∈ fetched s → v ∈ seen s)
                 ∧ ∀ t u l, posting (index s) t u = Some l →
                     u ∈ fetched s ∧ l ≠ [] ∧ StronglySorted lt l)).
  2:{ split; [by intros v ?%elem_of_nil|].
      intros t u l Hl. simpl in Hl. by rewrite posting_empty in Hl. }
  intros s [Hseen Hpost].
  assert (∀ s0 : State, index s0 = index s → seen s ⊆ seen s0 →
            (∀ v, v ∈ fetched s0 → v ∈ fetched s ∨ v ∈ seen s0) →
            (∀ v, v ∈ fetched s → v ∈ fetched s0) →
            (∀ v, v ∈ fetched s0 → v ∈ seen s0)
            ∧ ∀ t u l, posting (index s0) t u = Some l →
                u ∈ fetched s0 ∧ l ≠ [] ∧ StronglySorted lt l) as Hsame.
  { intros s0 Hi Hsub Hf Hf'. split.
    - intros v Hv. destruct (Hf v Hv) as [?|?]; [by apply Hsub, Hseen|done].
    - intros t u l Hl. rewrite Hi in Hl.
      destruct (Hpost t u l Hl) as (? & ? & ?). split_and!; [by apply Hf'|done..]. }
  destruct (cases s) as [[_ ->]|(url & rest & Hc & Hq & Hcase)]; [done|].
  destruct Hcase as [[_ ->]|[Hskip|Hfetch]].
  - apply Hsame; [done..|by left|done].
  - destruct Hskip as (_ & _ & _ & Hs & Hi & _ & Hf & _).
    apply Hsame; [done|rewrite Hs; apply union_subseteq_r| |];
      rewrite Hf; [by left|done].
  - assert (url ∈ ({[url]} ∪ seen s : gset string)) as Hurl
      by (apply elem_of_union_l; by apply elem_of_singleton).
    destruct Hfetch as (Hnot & _ & _ & _ & [Hsame'|(r & s' & raised & _ & Htry & Hsame')]).
    + destruct Hsame' as (_ & Hs & Hi & _ & Hf & _). simpl in *.
      apply Hsame; [done|rewrite Hs; apply union_subseteq_r| |]; rewrite Hf.
      * intros v [?|Hv%list_elem_of_singleton]%elem_of_app;
          [by left|right; subst v; by rewrite Hs].
      * intros v ?. apply elem_of_app. by left.
    + destruct Hsame' as (_ & Hs & Hi & _ & Hf & _).
      pose proof (try_data url (text r)
                    (request url
                       (set_seen ({[url]} ∪ seen s) (set_to_crawl rest s))))
        as Hdata.
      rewrite Htry in Hdata.
      destruct Hdata as (Hs' & Hf' & _ & _ & (tokens & Hi') & _).
      simpl in Hs', Hf', Hi'.
      rewrite Hs, Hi, Hf, Hs', Hf', Hi'. split.
      * intros v [Hv|Hv%list_elem_of_singleton]%elem_of_app;
          [|by subst v].
        apply elem_of_union_r. by apply Hseen.
      * intros t u l. unfold index_tokens.
        destruct (decide (u = url)) as [->|Hne].
        -- rewrite posting_index_from.
           assert (posting (index s) t url = None) as Hold.
           { destruct (posting (index s) t url) as [l0|] eqn:Hl0; [|done].
             destruct (Hpost t url l0 Hl0) as [Hin _].
             by apply Hseen in Hin. }
           rewrite Hold.
           destruct (decide (t ∈ tokens)) as [Hin|Hin]; [|done].
           simpl. intros [= <-]. split_and!.
           ++ apply elem_of_app. right. by apply list_elem_of_singleton.
           ++ by apply positions_from_present.
           ++ apply positions_from_sorted.
        -- rewrite posting_index_from_other by done. intros Hl.
           destruct (Hpost t u l Hl) as (? & ? & ?).
           split_and!; [|done..]. apply elem_of_app. by left.
Qed.

(** Only URLs that pass the tests made on a dequeued URL are requested. *)
Lemma fetched_passed_tests (START_URL : string) (n : nat) :
  Forall (λ u, in_scope u = Some true ∧ is_html u = Some true)
    (fetched (turns n (initial START_URL))).
Proof.
  apply (run_invariant urljoin html_feed requests_get dump in_scope is_html
           link_wanted
           (λ s, Forall (λ u, in_scope u = Some true ∧ is_html u = Some true)
                   (fetched s))); [|constructor].
  intros s Hall.
  destruct (cases s) as [[_ ->]|(url & rest & Hc & Hq & Hcase)]; [done|].
  destruct Hcase as [[_ ->]|[Hskip|Hfetch]]; [done| |].
  - destruct Hskip as (_ & _ & _ & _ & _ & _ & -> & _). done.
  - destruct Hfetch as (_ & Hscope & Hhtml & _ & [Hsame|(r & s' & raised & _ & Htry & Hsame)]).
    + destruct Hsame as (_ & _ & _ & _ & -> & _). simpl.
      apply Forall_app. split; [done|]. by constructor.
    + destruct Hsame as (_ & _ & _ & _ & -> & _).
      pose proof (try_data url (text r)
                    (request url
                       (set_seen ({[url]} ∪ seen s) (set_to_crawl rest s))))
        as Hdata.
      rewrite Htry in Hdata. destruct Hdata as (_ & -> & _). simpl.
      apply Forall_app. split; [done|]. by constructor.
Qed.

(** The queue holds the seed and links that passed the condition of the
    script, and so do the requests; when the tests raise on none of these,
    no exception escapes the loop. *)
Lemma queue_origin (START_URL : string) (n : nat) :
  Forall (λ u, u = START_URL ∨ ∃ seen, link_wanted seen u = Some true)
    (to_crawl (turns n (initial START_URL))
     ++ fetched (turns n (initial START_URL)))
  ∧ ((∀ u, u = START_URL ∨ (∃ seen, link_wanted seen u = Some true) →
           in_scope u ≠ None ∧ is_html u ≠ None) →
     crashed (turns n (initial START_URL)) = false).
Proof.
  apply (run_invariant urljoin html_feed requests_get dump in_scope is_html
           link_wanted
           (λ s, Forall (λ u, u = START_URL
                              ∨ ∃ seen, link_wanted seen u = Some true)
                   (to_crawl s ++ fetched s)
                 ∧ ((∀ u, u = START_URL
                          ∨ (∃ seen, link_wanted seen u = Some true) →
                          in_scope u ≠ None ∧ is_html u ≠ None) →
                    crashed s = false)));
    [|split; [repeat constructor | done]].
  intros s [Hall Hcrash].
  destruct (cases s) as [[_ ->]|(url & rest & Hc & Hq & Hcase)]; [done|].
  rewrite Hq in Hall. apply Forall_app in Hall as [Hqueue Hfetched].
  apply Forall_cons in Hqueue as [Hurl Hrest].
  destruct Hcase as [[_ ->]|[Hskip|Hfetch]].
  - split; [|done]. apply Forall_app. by split.
  - destruct Hskip as (_ & _ & -> & _ & _ & _ & -> & _ & Hcr).
    split; [apply Forall_app; by split|].
    intros Hok. destruct (Hok url Hurl) as [? ?].
    by destruct Hcr as [?|[?|?]].
  - destruct Hfetch as (_ & _ & _ & Hcr & [Hsame|(r & s' & raised & _ & Htry & Hsame)]).
    + destruct Hsame as (-> & _ & _ & _ & -> & _). simpl.
      split; [|done].
      apply Forall_app. split; [done|]. apply Forall_app. split; [done|].
      by constructor.
    + destruct Hsame as (-> & _ & _ & _ & -> & _).
      pose proof (try_data url (text r)
                    (request url
                       (set_seen ({[url]} ∪ seen s) (set_to_crawl rest s))))
        as Hdata.
      rewrite Htry in Hdata.
      destruct Hdata as (_ & -> & _ & (new & -> & Hnew) & _). simpl.
      split; [|done]. apply Forall_app. split.
      * apply Forall_app. split; [done|].
        eapply Forall_impl; [exact Hnew|]. intros link Hlink. right.
        simpl in Hlink. by eexists.
      * apply Forall_app. split; [done|]. by constructor.
Qed.

Lemma discovered_mono START_URL pages pages' u :
  (∀ page, page ∈ pages → page ∈ pages') →
  discovered urljoin START_URL pages u →
  discovered urljoin START_URL pages' u.
Proof.
  intros Hsub [->|(page & href & Hin & Hu)]; [by left|].
  right. exists page, href. split; [by apply Hsub | done].
Qed.

(** X27. In a run of either script no string is requested twice, and a
    URL in [seen] is not requested later, however often it is found as a
    link.  Every URL of the queue, and every URL requested, is the seed as
    given or an [href] of a requested page, cut at its first [#] and
    resolved against the URL of that page: two links that are equal after
    fragment stripping and resolution are one string, requested at most
    once. *)
Theorem links_fetched_at_most_once (START_URL : string) (n m : nat) :
  let s := turns n (initial START_URL) in
  let s' := turns m s in
  NoDup (fetched s')
  ∧ (∀ u, u ∈ fetched s → u ∈ seen s)
  ∧ (∃ later, fetched s' = fetched s ++ later
              ∧ ∀ u, u ∈ seen s → u ∉ later)
  ∧ Forall (discovered urljoin START_URL (fetched s))
      (to_crawl s ++ fetched s).
Proof.
  intros s s'.
  destruct (run_fetched_once urljoin html_feed requests_get dump in_scope
              is_html link_wanted n (initial START_URL))
    as [Hnd Hseen]; [constructor | by intros u ?%elem_of_nil |].
  destruct (run_requests urljoin html_feed requests_get dump in_scope
              is_html link_wanted m s)
    as (Hsub & later & Hf & Hndl & Hlater).
  split_and!.
  - unfold s'. rewrite Hf. apply NoDup_app.
    split_and!; [exact Hnd| |exact Hndl].
    intros u Hu Hu'. apply Hlater in Hu' as [Hu' _]. apply Hu', Hseen, Hu.
  - exact Hseen.
  - exists later. split; [exact Hf|].
    intros u Hu Hu'. apply Hlater in Hu' as [Hu' _]. by apply Hu'.
  - unfold s. clear.
    apply (run_invariant urljoin html_feed requests_get dump in_scope
             is_html link_wanted
             (λ s, Forall (discovered urljoin START_URL (fetched s))
                     (to_crawl s ++ fetched s)));
      [|repeat constructor].
    intros s Hall.
    destruct (cases s) as [[_ ->]|(url & rest & Hc & Hq & Hcase)]; [done|].
    rewrite Hq in Hall. apply Forall_app in Hall as [Hqueue Hfetched].
    apply Forall_cons in Hqueue as [Hurl Hrest].
    assert (∀ pages, (∀ page, page ∈ fetched s → page ∈ pages) →
              Forall (discovered urljoin START_URL pages) (rest ++ fetched s)
              ∧ discovered urljoin START_URL pages url) as Hold.
    { intros pages Hsub. split.
      - apply Forall_app. split.
        + eapply Forall_impl; [exact Hrest|]. intros u.
          by apply discovered_mono.
        + eapply Forall_impl; [exact Hfetched|]. intros u.
          by apply discovered_mono.
      - by apply (discovered_mono START_URL (fetched s)). }
    destruct Hcase as [[_ ->]|[Hskip|Hfetch]].
    + by apply (Hold (fetched s)).
    + destruct Hskip as (_ & _ & -> & _ & _ & _ & -> & _).
      by apply (Hold (fetched s)).
    + assert (∀ page, page ∈ fetched s → page ∈ fetched s ++ [url])
        as Hgrow by (intros page ?; apply elem_of_app; by left).
      destruct (Hold (fetched s ++ [url]) Hgrow) as [Hrest' Hurl'].
      destruct Hfetch as (_ & _ & _ & _
                          & [Hsame|(r & s' & raised & _ & Htry & Hsame)]).
      * destruct Hsame as (-> & _ & _ & _ & -> & _). simpl.
        rewrite app_assoc. apply Forall_app. split; [done|].
        by constructor.
      * destruct Hsame as (-> & _ & _ & _ & -> & _).
        pose proof (try_data url (text r)
                      (request url
                         (set_seen ({[url]} ∪ seen s) (set_to_crawl rest s))))
          as Hdata.
        destruct (try_index_links urljoin html_feed dump link_wanted url
                    (text r)
                    (request url
                       (set_seen ({[url]} ∪ seen s) (set_to_crawl rest s))))
          as (new & Hq' & Hnew).
        rewrite Htry in Hdata, Hq'. simpl in Hq'.
        destruct Hdata as (_ & -> & _). rewrite Hq'. simpl.
        apply Forall_app in Hrest' as [Hr1 Hr2].
        repeat (apply Forall_app; split); try done.
        -- eapply Forall_impl; [exact Hnew|]. intros u (href & Hu).
           right. exists url, href. split; [|done].
           apply elem_of_app. right. by apply list_elem_of_singleton.
        -- by constructor.
Qed.
End crawl_origin.

Lemma postings_are_sorted_and_of_fetched_pages_example :
  "https://ex.com/"
  ∈ fetched
      (Indexer.run PyLib.urlparse PyLib.urljoin HtmlModel.feed
        answer_200 written
         "ex.com" 2 (initial "https://ex.com/"))
  ∧ [0] ≠ [] ∧ StronglySorted lt [0].
Proof.
  apply (postings_are_sorted_and_of_fetched_pages PyLib.urljoin HtmlModel.feed
           answer_200 written (λ _, Some true) (is_likely_html PyLib.urlparse)
           (Indexer.link_wanted PyLib.urlparse "ex.com") "https://ex.com/" 2
           "hello" "https://ex.com/" [0]).
  vm_compute. reflexivity.
Defined.

(** ** Each script and its scope *)

Lemma is_likely_html_defined (urlparse : string → option PyLib.ParseResult)
    (u : string) (r : PyLib.ParseResult) :
  urlparse u = Some r → is_likely_html urlparse u ≠ None.
Proof.
  intros Hr. unfold is_likely_html. rewrite Hr. simpl.
  destruct (PyLib.splitext (PyLib.path r)) as [root ext].
  destruct (html_ext ext); [done|]. by destruct (endswith _ _).
Qed.

Lemma indexer_link_wanted (urlparse : string → option PyLib.ParseResult)
    (DOMAIN : string) (seen : gset string) (link : string) :
  Indexer.link_wanted urlparse DOMAIN seen link = Some true →
  ∃ r, urlparse link = Some r ∧ PyLib.netloc r = DOMAIN ∧ (link ∉ seen)
       ∧ is_likely_html urlparse link = Some true.
Proof.
  unfold Indexer.link_wanted. intros Hw.
  destruct (urlparse link) as [r|] eqn:Hparse; [|done].
  exists r. simpl in Hw.
  destruct (String.eqb_spec (PyLib.netloc r) DOMAIN) as [Hdom|]; [|done].
  destruct (bool_decide (link ∉ seen)) eqn:Hseen; [|done].
  apply bool_decide_eq_true in Hseen. done.
Qed.

Lemma prefixed_link_wanted_parses
    (urlparse : string → option PyLib.ParseResult)
    (DOMAIN PREFIX_DIR : string) (seen : gset string) (link : string) :
  Prefixed.link_wanted urlparse DOMAIN PREFIX_DIR seen link = Some true →
  ∃ r, urlparse link = Some r.
Proof.
  unfold Prefixed.link_wanted. intros Hw.
  destruct (urlparse link) as [r|]; [by exists r | done].
Qed.

Section script_scope.
Variable urlparse : string → option PyLib.ParseResult.
Variable urljoin : string → string → option string.
Variable html_feed : string → option (list Event).
Variable requests_get : nat → string → option Response.
Variable dump : nat → Index → bool.
Variable DOMAIN : string.

(** X17. The unscoped script requests, besides the seed, only URLs whose
    authority is [DOMAIN]; and every URL it requests, the seed included,
    passes [is_likely_html]. *)
Theorem indexer_stays_on_domain (START_URL : string) (n : nat) :
  Forall (λ u, is_likely_html urlparse u = Some true
               ∧ (u = START_URL
                  ∨ ∃ r, urlparse u = Some r ∧ PyLib.netloc r = DOMAIN))
    (fetched
       (Indexer.run urlparse urljoin html_feed requests_get dump DOMAIN n
          (initial START_URL))).
Proof.
  pose proof (fetched_passed_tests urljoin html_feed requests_get dump
                (λ _, Some true) (is_likely_html urlparse)
                (Indexer.link_wanted urlparse DOMAIN) START_URL n) as Htests.
  destruct (queue_origin urljoin html_feed requests_get dump
              (λ _, Some true) (is_likely_html urlparse)
              (Indexer.link_wanted urlparse DOMAIN) START_URL n)
    as [Horigin _].
  apply Forall_app in Horigin as [_ Horigin].
  unfold Indexer.run. rewrite Forall_forall in *.
  intros u Hu. split; [by apply Htests|].
  destruct (Horigin u Hu) as [?|[sn Hw]]; [by left|right].
  apply indexer_link_wanted in Hw as (r & ? & ? & _). by exists r.
Qed.

(** X18. The prefixed script requests only URLs whose authority is
    [DOMAIN] and whose path starts with [PREFIX_DIR], the seed included. *)
Theorem prefixed_stays_in_scope (PREFIX_DIR START_URL : string) (n : nat) :
  Forall (λ u, ∃ r, urlparse u = Some r ∧ PyLib.netloc r = DOMAIN
                    ∧ startswith (PyLib.path r) PREFIX_DIR = true
                    ∧ is_likely_html urlparse u = Some true)
    (fetched
       (Prefixed.run urlparse urljoin html_feed requests_get dump DOMAIN
          PREFIX_DIR n (initial START_URL))).
Proof.
  pose proof (fetched_passed_tests urljoin html_feed requests_get dump
                (Prefixed.in_scope urlparse DOMAIN PREFIX_DIR)
                (is_likely_html urlparse)
                (Prefixed.link_wanted urlparse DOMAIN PREFIX_DIR)
                START_URL n) as Htests.
  unfold Prefixed.run. eapply Forall_impl; [exact Htests|].
  intros u [Hscope Hhtml]. unfold Prefixed.in_scope in Hscope.
  destruct (urlparse u) as [r|]; [|done]. exists r.
  simpl in Hscope. injection Hscope as Hscope.
  apply andb_true_iff in Hscope as [Hdom Hpre].
  apply String.eqb_eq in Hdom. done.
Qed.

(** X19. When [urlparse] accepts the seed, no exception escapes the loop of
    either script: whatever the pages and the network do, the run goes on
    until the queue is empty. *)
Theorem scripts_never_crash (START_URL : string) (r : PyLib.ParseResult)
    (PREFIX_DIR : string) (n : nat) :
  urlparse START_URL = Some r →
  crashed
    (Indexer.run urlparse urljoin html_feed requests_get dump DOMAIN n
       (initial START_URL)) = false
  ∧ crashed
      (Prefixed.run urlparse urljoin html_feed requests_get dump DOMAIN
         PREFIX_DIR n (initial START_URL)) = false.
Proof.
  intros Hseed. split.
  - apply (queue_origin urljoin html_feed requests_get dump
             (λ _, Some true) (is_likely_html urlparse)
             (Indexer.link_wanted urlparse DOMAIN) START_URL n).
    intros u [->|[sn Hw]]; (split; [done|]).
    + by apply (is_likely_html_defined urlparse START_URL r).
    + apply indexer_link_wanted in Hw as (r' & Hr' & _).
      by apply (is_likely_html_defined urlparse u r').
  - apply (queue_origin urljoin html_feed requests_get dump
             (Prefixed.in_scope urlparse DOMAIN PREFIX_DIR)
             (is_likely_html urlparse)
             (Prefixed.link_wanted urlparse DOMAIN PREFIX_DIR) START_URL n).
    assert (∀ u r', urlparse u = Some r' →
              Prefixed.in_scope urlparse DOMAIN PREFIX_DIR u ≠ None
              ∧ is_likely_html urlparse u ≠ None) as Hok.
    { intros u r' Hr'. split; [|by apply (is_likely_html_defined _ u r')].
      unfold Prefixed.in_scope. by rewrite Hr'. }
    intros u [->|[sn Hw]]; [by apply (Hok START_URL r)|].
    apply prefixed_link_wanted_parses in Hw as [r' Hr'].
    by apply (Hok u r').
Qed.
End script_scope.

Lemma scripts_never_crash_example :
  crashed
    (Indexer.run PyLib.urlparse PyLib.urljoin HtmlModel.feed answer_200 written
       "ex.com" 3 (initial "https://ex.com/")) = false
  ∧ crashed
      (Prefixed.run PyLib.urlparse PyLib.urljoin HtmlModel.feed
        answer_200 written
         "ex.com" "/" 3 (initial "https://ex.com/")) = false.
Proof.
  apply (scripts_never_crash PyLib.urlparse PyLib.urljoin HtmlModel.feed
           answer_200 written "ex.com" "https://ex.com/"
           (PyLib.mkParseResult "https" "ex.com" "/" "" "" "") "/" 3).
  vm_compute. reflexivity.
Defined.

(** ** The prefix of the prefixed script *)

Section prefix_facts.
Local Open Scope Z_scope.

Lemma prefix_refl (s : string) : String.prefix s s = true.
Proof.
  induction s as [|a s IH]; [done|]. simpl.
  destruct (ascii_dec a a); [done|congruence].
Qed.

Lemma prefix_app (a x y : string) :
  String.prefix (a +:+ x) (a +:+ y) = String.prefix x y.
Proof.
  induction a as [|c a IH]; [done|]. rewrite !string_app_cons. simpl.
  destruct (ascii_dec c c); [done|congruence].
Qed.

Lemma prefix_longer (p : string) (c : ascii) :
  String.prefix (p +:+ chr_of c) p = false.
Proof.
  induction p as [|a p IH]; [done|]. rewrite string_app_cons. simpl.
  by destruct (ascii_dec a a).
Qed.

Lemma endswith_app (a b : string) : endswith (a +:+ b) b = true.
Proof.
  induction a as [|c a IH].
  - rewrite string_app_nil_l. destruct b as [|x b]; [done|].
    by rewrite endswith_cons, String.eqb_refl.
  - rewrite string_app_cons, endswith_cons, IH. by rewrite orb_true_r.
Qed.

Lemma find_at_absent_any (c : ascii) (s : string) : ∀ i j,
  0 ≤ i → 0 ≤ j → find_at c s i < 0 → find_at c s j < 0.
Proof.
  induction s as [|a s IH]; intros i j Hi Hj Hfind; simpl in *; [lia|].
  destruct (Ascii.eqb a c); [lia|]. apply (IH (i + 1)); lia.
Qed.

Lemma contains_cons (c a : ascii) (s : string) :
  contains c (String a s) = Ascii.eqb a c || contains c s.
Proof.
  unfold contains, find. cbn [find_at].
  destruct (Ascii.eqb a c); [done|]. change (0 + 1) with 1. cbn [orb].
  destruct (Z.leb_spec 0 (find_at c s 1)) as [H1|H1];
    destruct (Z.leb_spec 0 (find_at c s 0)) as [H0|H0]; try done.
  - pose proof (find_at_absent_any c s 0 1). lia.
  - pose proof (find_at_absent_any c s 1 0). lia.
Qed.

Lemma contains_app (c : ascii) (a b : string) :
  contains c (a +:+ b) = contains c a || contains c b.
Proof.
  induction a as [|x a IH]; [done|].
  rewrite string_app_cons, !contains_cons, IH. by rewrite orb_assoc.
Qed.

(** A string that holds [c] splits at the last [c]. *)
Lemma contains_last (c : ascii) (s : string) :
  contains c s = true →
  ∃ a b, s = a +:+ String c b ∧ contains c b = false.
Proof.
  induction s as [|x s IH]; [done|].
  rewrite contains_cons. intros Hc.
  destruct (contains c s) eqn:Hs.
  - destruct (IH eq_refl) as (a & b & -> & Hb).
    exists (String x a), b. by rewrite string_app_cons.
  - rewrite orb_false_r in Hc. apply Ascii.eqb_eq in Hc as ->.
    by exists "", s.
Qed.

Lemma endswith_contains (c : ascii) (s : string) :
  endswith s (chr_of c) = true → contains c s = true.
Proof.
  induction s as [|a s IH]; [done|].
  rewrite endswith_cons, contains_cons.
  intros [Heq|Hend]%orb_true_iff.
  - apply String.eqb_eq in Heq. injection Heq as -> _.
    by rewrite Ascii.eqb_refl.
  - rewrite (IH Hend). by rewrite orb_true_r.
Qed.

Lemma prefix_dir_without_slash (p : string) :
  contains "/" p = false → Prefixed.prefix_dir p = p +:+ "/".
Proof.
  intros Hno. unfold Prefixed.prefix_dir.
  destruct (endswith p "/") eqn:Hend.
  - apply (endswith_contains "/") in Hend. congruence.
  - unfold rsplit1, rfind. by rewrite absent_rfind.
Qed.

Lemma prefix_dir_with_slash (a b : string) :
  contains "/" b = false →
  Prefixed.prefix_dir (a +:+ String "/" b)
  = if truthy b then a +:+ "/" else a +:+ "/" +:+ b.
Proof.
  intros Hb. destruct b as [|x b].
  - simpl. unfold Prefixed.prefix_dir.
    by rewrite (endswith_app a "/").
  - simpl truthy. cbv iota.
    apply (prefix_dir_of_file a (String x b)); done.
Qed.

(** A path starts with its own prefix directory exactly when it holds a
    slash. *)
Lemma path_under_own_prefix (p : string) :
  startswith p (Prefixed.prefix_dir p) = contains "/" p.
Proof.
  unfold startswith. destruct (contains "/" p) eqn:Hc.
  - apply contains_last in Hc as (a & b & -> & Hb).
    rewrite prefix_dir_with_slash by done.
    destruct b as [|x b]; simpl truthy; cbv iota.
    + apply prefix_refl.
    + change "/" with (String "/" "") at 1. rewrite prefix_app. reflexivity.
  - rewrite prefix_dir_without_slash by done. apply prefix_longer.
Qed.
End prefix_facts.

(** X20. [PREFIX_DIR] always ends in a slash. *)
Theorem prefix_dir_ends_in_slash (path : string) :
  endswith (Prefixed.prefix_dir path) "/" = true.
Proof.
  unfold Prefixed.prefix_dir.
  destruct (endswith path "/") eqn:Hend; [exact Hend|].
  apply endswith_app.
Qed.

(** X21. The seed itself passes the scope test of the prefixed script
    exactly when its path holds a slash: a seed with an empty path, such as
    [https://ex.com], is outside its own prefix [/]. *)
Theorem seed_in_scope_iff_path_has_slash
    (urlparse : string → option PyLib.ParseResult) (START_URL : string)
    (r : PyLib.ParseResult) :
  urlparse START_URL = Some r →
  Prefixed.in_scope urlparse (PyLib.netloc r)
    (Prefixed.prefix_dir (PyLib.path r)) START_URL
  = Some (contains "/" (PyLib.path r)).
Proof.
  intros Hr. unfold Prefixed.in_scope. rewrite Hr. simpl.
  rewrite String.eqb_refl. simpl. f_equal. apply path_under_own_prefix.
Qed.

Lemma seed_in_scope_iff_path_has_slash_example :
  Prefixed.in_scope PyLib.urlparse "ex.com" (Prefixed.prefix_dir "")
    "https://ex.com"
  = Some (contains "/" "").
Proof.
  apply (seed_in_scope_iff_path_has_slash PyLib.urlparse "https://ex.com"
           (PyLib.mkParseResult "https" "ex.com" "" "" "" "")).
  vm_compute. reflexivity.
Defined.

(** X22. Started at a seed whose path holds no slash, the prefixed script
    requests nothing and indexes nothing: it drops the seed and ends. *)
Theorem seed_without_path_crawls_nothing
    (urlparse : string → option PyLib.ParseResult)
    (urljoin : string → string → option string)
    (html_feed : string → option (list Event))
    (requests_get : nat → string → option Response)
    (dump : nat → Index → bool)
    (START_URL : string) (r : PyLib.ParseResult) (n : nat) :
  urlparse START_URL = Some r →
  contains "/" (PyLib.path r) = false →
  let s :=
    Prefixed.run urlparse urljoin html_feed requests_get dump (PyLib.netloc r)
      (Prefixed.prefix_dir (PyLib.path r)) n (initial START_URL) in
  fetched s = [] ∧ index s = ∅ ∧ page_count s = 0 ∧ crashed s = false
  ∧ (0 < n → to_crawl s = []).
Proof.
  intros Hr Hno s.
  assert (Prefixed.in_scope urlparse (PyLib.netloc r)
            (Prefixed.prefix_dir (PyLib.path r)) START_URL = Some false)
    as Hscope.
  { unfold Prefixed.in_scope. rewrite Hr. simpl.
    by rewrite String.eqb_refl, path_under_own_prefix, Hno. }
  destruct n as [|n]; [subst s; simpl; split_and!; [done..|lia]|].
  assert (∀ m st, to_crawl st = [] →
            run urljoin html_feed requests_get dump
              (Prefixed.in_scope urlparse (PyLib.netloc r)
                 (Prefixed.prefix_dir (PyLib.path r)))
              (is_likely_html urlparse)
              (Prefixed.link_wanted urlparse (PyLib.netloc r)
                 (Prefixed.prefix_dir (PyLib.path r))) m st = st) as Hstop.
  { induction m as [|m IH]; intros st Hq; [done|]. simpl.
    assert (iteration urljoin html_feed requests_get dump
              (Prefixed.in_scope urlparse (PyLib.netloc r)
                 (Prefixed.prefix_dir (PyLib.path r)))
              (is_likely_html urlparse)
              (Prefixed.link_wanted urlparse (PyLib.netloc r)
                 (Prefixed.prefix_dir (PyLib.path r))) st = st) as ->.
    { unfold iteration. rewrite Hq. by destruct (crashed st). }
    by apply IH. }
  assert (iteration urljoin html_feed requests_get dump
            (Prefixed.in_scope urlparse (PyLib.netloc r)
               (Prefixed.prefix_dir (PyLib.path r)))
            (is_likely_html urlparse)
            (Prefixed.link_wanted urlparse (PyLib.netloc r)
               (Prefixed.prefix_dir (PyLib.path r))) (initial START_URL)
          = set_seen ({[START_URL]} ∪ ∅) (set_to_crawl [] (initial START_URL)))
    as Hstep.
  { unfold iteration. simpl. by rewrite Hscope. }
  subst s. unfold Prefixed.run. cbn [run]. rewrite Hstep.
  rewrite Hstop by done. simpl. done.
Qed.

Lemma seed_without_path_crawls_nothing_example :
  let s :=
    Prefixed.run PyLib.urlparse PyLib.urljoin HtmlModel.feed answer_200 written
      "ex.com" (Prefixed.prefix_dir "") 3 (initial "https://ex.com") in
  fetched s = [] ∧ index s = ∅ ∧ page_count s = 0 ∧ crashed s = false
  ∧ (0 < 3 → to_crawl s = []).
Proof.
  apply (seed_without_path_crawls_nothing PyLib.urlparse PyLib.urljoin
           HtmlModel.feed answer_200 written "https://ex.com"
           (PyLib.mkParseResult "https" "ex.com" "" "" "" "") 3).
  - vm_compute. reflexivity.
  - reflexivity.
Defined.

(** ** Splitting at a character *)

Lemma split_go_no_sep (c : ascii) (s : string) : ∀ cur,
  contains c s = false → split_go c s cur = [cur +:+ s].
Proof.
  induction s as [|x s IH]; intros cur Hno.
  - by rewrite string_app_nil_r.
  - rewrite contains_cons in Hno. apply orb_false_iff in Hno as [Hx Hs].
    simpl. rewrite Hx, IH by done. by rewrite string_app_assoc.
Qed.

Lemma split_go_first (c : ascii) (a b : string) : ∀ cur,
  contains c a = false →
  split_go c (a +:+ String c b) cur = (cur +:+ a) :: split_go c b "".
Proof.
  induction a as [|x a IH]; intros cur Hno.
  - rewrite string_app_nil_l, string_app_nil_r. simpl.
    by rewrite Ascii.eqb_refl.
  - rewrite contains_cons in Hno. apply orb_false_iff in Hno as [Hx Ha].
    rewrite string_app_cons. simpl. rewrite Hx, IH by done.
    by rewrite string_app_assoc.
Qed.

Lemma split_go_pieces (c : ascii) (s : string) : ∀ cur,
  contains c cur = false →
  Forall (λ piece, contains c piece = false) (split_go c s cur).
Proof.
  induction s as [|x s IH]; intros cur Hcur; simpl.
  - by constructor.
  - destruct (Ascii.eqb x c) eqn:Hx.
    + constructor; [done|]. by apply IH.
    + apply IH. rewrite contains_app, Hcur. unfold chr_of.
      by rewrite contains_cons, Hx.
Qed.

Lemma last_of_all (P : string → Prop) (l : list string) :
  Forall P l → P "" → P (PyStr.last l).
Proof.
  unfold PyStr.last. intros Hall Hd.
  induction Hall as [|x l Hx Hall IH]; [done|].
  destruct l; [done|]. exact IH.
Qed.

(** X23. Before a link is resolved its fragment is cut off: the candidate
    is the part of the [href] before the first [#], the whole [href] when
    it has none, and never holds a [#]. *)
Theorem fragment_is_stripped (href : string) :
  contains "#" (first (split "#" href)) = false
  ∧ (contains "#" href = false → first (split "#" href) = href)
  ∧ (∀ a b, href = a +:+ String "#" b → contains "#" a = false →
            first (split "#" href) = a).
Proof.
  split_and!.
  - pose proof (split_go_pieces "#" href "" eq_refl) as Hall.
    unfold split. destruct Hall; [done|]. done.
  - intros Hno. unfold split. by rewrite split_go_no_sep.
  - intros a b -> Ha. unfold split. by rewrite split_go_first.
Qed.

Lemma fragment_is_stripped_example :
  first (split "#" "/page.html#top#x") = "/page.html".
Proof.
  pose proof (fragment_is_stripped "/page.html#top#x") as (_ & _ & H).
  apply (H "/page.html" "top#x"); reflexivity.
Defined.

(** X24. The name of the output file of the prefixed script is never
    empty and holds no slash, so the index is written into the working
    directory; the prefix [/html/sp/] gives [search_index_sp.json] and the
    prefix [/] gives [search_index_root.json]. *)
Theorem output_file_name (PREFIX_DIR : string) :
  truthy (PrefixedOutput.PREFIX_NAME PREFIX_DIR) = true
  ∧ contains "/" (PrefixedOutput.PREFIX_NAME PREFIX_DIR) = false
  ∧ contains "/" (PrefixedOutput.OUTPUT_JSON PREFIX_DIR) = false
  ∧ PrefixedOutput.OUTPUT_JSON "/html/sp/" = "search_index_sp.json"
  ∧ PrefixedOutput.OUTPUT_JSON "/" = "search_index_root.json".
Proof.
  assert (contains "/" (PrefixedOutput.PREFIX_NAME PREFIX_DIR) = false)
    as Hname.
  { unfold PrefixedOutput.PREFIX_NAME.
    destruct (truthy (PyStr.last _)); [|reflexivity].
    apply (last_of_all (λ piece, contains "/" piece = false));
      [|reflexivity].
    unfold split. by apply split_go_pieces. }
  split_and!; [|exact Hname| |reflexivity..].
  - unfold PrefixedOutput.PREFIX_NAME.
    by destruct (truthy (PyStr.last _)) eqn:Hlast.
  - unfold PrefixedOutput.OUTPUT_JSON. by rewrite !contains_app, Hname.
Qed.

Lemma text_extractor_off (texts : list string) (rest : list Event) :
  ∀ st : TextExtractor.t,
    TextExtractor.in_body st && negb (TextExtractor.skip st) = false →
    TextExtractor.feed st (map Data texts ++ rest) = TextExtractor.feed st rest.
Proof.
  induction texts as [|d texts IH]; intros st Hoff; [done|].
  change (TextExtractor.feed st (map Data (d :: texts) ++ rest))
    with (TextExtractor.feed (TextExtractor.handle_data st d)
            (map Data texts ++ rest)).
  unfold TextExtractor.handle_data. rewrite Hoff. by apply IH.
Qed.

(** X25. The text nodes that follow a start tag [script], [style] or
    [head] are never kept, inside [body] or outside. *)
Theorem skipped_elements_give_no_text (self : TextExtractor.t)
    (tag : string) (attrs : list (string * option string))
    (texts : list string) (rest : list Event) :
  is_skip_tag tag = true →
  TextExtractor.feed self (StartTag tag attrs :: map Data texts ++ rest)
  = TextExtractor.feed self (StartTag tag attrs :: rest).
Proof.
  intros Hskip.
  change (TextExtractor.feed self (StartTag tag attrs :: map Data texts ++ rest))
    with (TextExtractor.feed (TextExtractor.handle_starttag self tag attrs)
            (map Data texts ++ rest)).
  change (TextExtractor.feed self (StartTag tag attrs :: rest))
    with (TextExtractor.feed (TextExtractor.handle_starttag self tag attrs)
            rest).
  assert (TextExtractor.in_body (TextExtractor.handle_starttag self tag attrs)
          && negb (TextExtractor.skip
                     (TextExtractor.handle_starttag self tag attrs)) = false)
    as Hoff.
  { unfold TextExtractor.handle_starttag. unfold is_skip_tag in Hskip.
    destruct (String.eqb_spec (lower tag) "body") as [Hb|Hb].
    - rewrite Hb in Hskip. discriminate.
    - rewrite Hskip. destruct (TextExtractor.in_body self) eqn:Hin; simpl.
      + reflexivity.
      + by rewrite Hin. }
  by apply text_extractor_off.
Qed.

Lemma skipped_elements_give_no_text_example :
  TextExtractor.feed
    (TextExtractor.mk true false ["Hello "])
    (StartTag "SCRIPT" [] :: map Data ["y()"] ++ [EndTag "script"; Data "World"])
  = TextExtractor.feed
      (TextExtractor.mk true false ["Hello "])
      (StartTag "SCRIPT" [] :: [EndTag "script"; Data "World"]).
Proof.
  apply skipped_elements_give_no_text. reflexivity.
Defined.

(** The data a turn leaves when the page requested is skipped. *)
Lemma skipped_fetch_data
    (urlparse : string → option PyLib.ParseResult)
    (urljoin : string → string → option string)
    (html_feed : string → option (list Event))
    (requests_get : nat → string → option Response)
    (dump : nat → Index → bool)
    (DOMAIN : string) (s : State) (url : string) (rest : list string) :
  crashed s = false → to_crawl s = url :: rest → url ∉ seen s →
  is_likely_html urlparse url = Some true →
  fetch_skipped (requests_get (length (fetched s)) url) →
  same_data
    (Indexer.iteration urlparse urljoin html_feed requests_get dump DOMAIN s)
    (request url (set_seen ({[url]} ∪ seen s) (set_to_crawl rest s))).
Proof.
  intros Hc Hq Hseen Hhtml Hskip. unfold Indexer.iteration.
  rewrite (iteration_fetch _ _ _ _ _ _ _ s url rest) by done. cbv zeta.
  destruct (requests_get _ url) as [r|]; [|by repeat split].
  simpl in Hskip. unfold raise_for_status.
  destruct Hskip as [[Hlo Hhi]|Hct].
  - apply Z.leb_le in Hlo. apply Z.ltb_lt in Hhi. rewrite Hlo, Hhi.
    by repeat split.
  - destruct (_ && _); [by repeat split|].
    rewrite Hct. by repeat split.
Qed.

(** X26. When the seed is not HTML-likely, or cannot be fetched (the
    request raises, or is answered with a 4xx or 5xx status or without
    [text/html]), the unscoped script ends after one turn, and its final
    flush, when the write succeeds, writes an empty index.  A seed that is
    not HTML-likely is not even requested. *)
Theorem unreachable_seed_writes_empty_index
    (urlparse : string → option PyLib.ParseResult)
    (urljoin : string → string → option string)
    (html_feed : string → option (list Event))
    (requests_get : nat → string → option Response)
    (dump : nat → Index → bool)
    (DOMAIN START_URL : string) (r : PyLib.ParseResult) :
  urlparse START_URL = Some r →
  is_likely_html urlparse START_URL = Some false
  ∨ fetch_skipped (requests_get 0 START_URL) →
  dump 0 ∅ = true →
  ∃ s,
    Indexer.main urlparse urljoin html_feed requests_get dump DOMAIN
      START_URL 1 = Some s
    ∧ index s = ∅ ∧ flushed s = [∅] ∧ page_count s = 0
    ∧ (is_likely_html urlparse START_URL = Some false → fetched s = []).
Proof.
  intros Hr Hskip Hdump.
  assert (∀ s0 : State, to_crawl s0 = [] → crashed s0 = false →
            index s0 = ∅ → flushed s0 = [] → page_count s0 = 0 →
            (is_likely_html urlparse START_URL = Some false →
             fetched s0 = []) →
            Indexer.iteration urlparse urljoin html_feed requests_get dump
              DOMAIN (initial START_URL) = s0 →
            ∃ s, Indexer.main urlparse urljoin html_feed requests_get dump
                   DOMAIN START_URL 1 = Some s
                 ∧ index s = ∅ ∧ flushed s = [∅] ∧ page_count s = 0
                 ∧ (is_likely_html urlparse START_URL = Some false →
                    fetched s = [])) as Hend.
  { intros s0 Hq Hc Hi Hf Hp Hreq Hstep.
    exists (finish dump s0).1. unfold Indexer.main, main. cbn [run].
    unfold Indexer.iteration in Hstep. rewrite Hstep, Hq, Hc.
    unfold finish, flush_index. cbn [print index flushed].
    rewrite Hi, Hf. cbn [length]. rewrite Hdump.
    cbn [fst print flush_call index flushed page_count fetched].
    by rewrite Hi, Hf, Hp. }
  destruct (is_likely_html urlparse START_URL) as [[]|] eqn:Hhtml.
  - destruct Hskip as [?|Hskip]; [done|].
    destruct (skipped_fetch_data urlparse urljoin html_feed requests_get dump
                DOMAIN (initial START_URL) START_URL [])
      as (Hq & _ & Hi & Hp & _ & Hf & Hc);
      [done|done|apply not_elem_of_empty|done|done|].
    eapply Hend; [exact Hq|exact Hc|exact Hi|exact Hf|exact Hp|done|
                   reflexivity].
  - eapply Hend; [..|reflexivity];
      unfold Indexer.iteration, iteration; simpl; by rewrite Hhtml.
  - by apply (is_likely_html_defined urlparse START_URL r) in Hhtml.
Qed.

Lemma unreachable_seed_writes_empty_index_example :
  (∃ s,
     Indexer.main PyLib.urlparse PyLib.urljoin HtmlModel.feed no_answer
       written "ex.com" "https://ex.com/" 1 = Some s
     ∧ index s = ∅ ∧ flushed s = [∅] ∧ page_count s = 0
     ∧ (is_likely_html PyLib.urlparse "https://ex.com/" = Some false →
        fetched s = []))
  ∧ (∃ s,
       Indexer.main PyLib.urlparse PyLib.urljoin HtmlModel.feed answer_200
         written "ex.com" "https://ex.com/file.pdf" 1 = Some s
       ∧ index s = ∅ ∧ flushed s = [∅] ∧ page_count s = 0
       ∧ (is_likely_html PyLib.urlparse "https://ex.com/file.pdf"
          = Some false → fetched s = [])).
Proof.
  split.
  - apply (unreachable_seed_writes_empty_index PyLib.urlparse PyLib.urljoin
             HtmlModel.feed no_answer written "ex.com" "https://ex.com/"
             (PyLib.mkParseResult "https" "ex.com" "/" "" "" "")).
    + vm_compute. reflexivity.
    + right. exact I.
    + reflexivity.
  - apply (unreachable_seed_writes_empty_index PyLib.urlparse PyLib.urljoin
             HtmlModel.feed answer_200 written "ex.com"
             "https://ex.com/file.pdf"
             (PyLib.mkParseResult "https" "ex.com" "/file.pdf" "" "" "")).
    + vm_compute. reflexivity.
    + left. vm_compute. reflexivity.
    + reflexivity.
Defined.
